(** * mcp_massive.formatters: JSON to flattened CSV

    A shallow embedding of [src/mcp_massive/formatters.py] ([json_to_csv]
    and [_flatten_dict]) together with the parts of the Python runtime the
    module calls: [str] / [repr] on the values [json.loads] produces,
    [dict(items)], and [csv.DictWriter] under the default dialect with
    [lineterminator="\n"].  A model of [csv.reader] is included to state
    that what the writer emits reads back. *)

From Stdlib Require Import ZArith String Ascii List Bool Lia DecimalString.
From Stdlib Require Import DecimalFacts DecimalPos.
From Stdlib Require Import Floats.PrimFloat.
From stdpp Require Import base gmap strings list.

Local Open Scope string_scope.
Local Open Scope list_scope.

(** ** Python values

    The values [json.loads] returns: [None], [bool], [int], [float], [str],
    [list] and [dict].  A [dict] is the list of its items in insertion
    order; a [str] is a Rocq string, character [n] standing for code point
    [n]. *)

Unset Elimination Schemes.
Inductive value : Type :=
| PyNone
| PyBool (b : bool)
| PyInt (n : Z)
| PyFloat (x : float)
| PyStr (s : string)
| PyList (elts : list value)
| PyDict (items : list (string * value)).
Set Elimination Schemes.

(** [isinstance(v, dict)] and [isinstance(v, list)]. *)
Definition is_dict (v : value) : bool :=
  match v with PyDict _ => true | _ => false end.

Definition is_list (v : value) : bool :=
  match v with PyList _ => true | _ => false end.

(** ** Dicts as insertion-ordered item lists *)

Section Dict.
Context {V : Type}.

(** [d.keys()] *)
Definition dict_keys (d : list (string * V)) : list string := d.*1.

(** [d.get(k)]: [None] when [k not in d]. *)
Fixpoint dict_get (k : string) (d : list (string * V)) : option V :=
  match d with
  | [] => None
  | (k', v) :: rest => if decide (k' = k) then Some v else dict_get k rest
  end.

(** [d[k] = v]: an existing key keeps its position and takes the new
    value, a new key goes to the end. *)
Fixpoint dict_set (k : string) (v : V) (d : list (string * V)) : list (string * V) :=
  match d with
  | [] => [(k, v)]
  | (k', v') :: rest =>
      if decide (k' = k) then (k, v) :: rest else (k', v') :: dict_set k v rest
  end.

(** [dict(items)]: the items are stored one after the other, left to
    right. *)
Definition dict_of_items (items : list (string * V)) : list (string * V) :=
  foldl (λ d kv, dict_set kv.1 kv.2 d) [] items.

(** Keys of a dict Python built are pairwise distinct. *)
Definition dict_wf (d : list (string * V)) : Prop := NoDup (dict_keys d).
End Dict.

(** ** [str] and [repr] *)

(** [str(n)] for an [int]: decimal digits, [-] in front of a negative. *)
Definition int_repr (n : Z) : string := NilZero.string_of_int (Z.to_int n).

(** A hexadecimal digit, in lower case. *)
Definition hex_digit (n : N) : ascii :=
  match n with
  | 0 => "0" | 1 => "1" | 2 => "2" | 3 => "3" | 4 => "4" | 5 => "5" | 6 => "6"
  | 7 => "7" | 8 => "8" | 9 => "9" | 10 => "a" | 11 => "b" | 12 => "c"
  | 13 => "d" | 14 => "e" | _ => "f"
  end%N%char.

(** [\xhh] *)
Definition hex_escape (c : ascii) : string :=
  let n := N_of_ascii c in
  String "\" (String "x" (String (hex_digit (n / 16)) (String (hex_digit (n mod 16)) ""))).

(** [str.isprintable] on one character above the ASCII range: the C1
    controls, the no-break space and the soft hyphen are not printable. *)
Definition latin1_printable (c : ascii) : bool :=
  let n := N_of_ascii c in
  ((160 <? n) && negb (n =? 173))%N.

(** One character of [repr(s)], inside quotes [q]. *)
Definition repr_char (q c : ascii) : string :=
  let n := N_of_ascii c in
  if bool_decide (c = q) || bool_decide (c = "\"%char) then String "\" (String c "")
  else if (n =? 9)%N then "\t"
  else if (n =? 10)%N then "\n"
  else if (n =? 13)%N then "\r"
  else if (n <? 32)%N || (n =? 127)%N then hex_escape c
  else if (n <? 127)%N then String c ""
  else if latin1_printable c then String c "" else hex_escape c.

(** The characters of [repr(s)] between the quotes. *)
Fixpoint repr_chars (q : ascii) (s : string) : string :=
  match s with
  | EmptyString => ""
  | String c rest => repr_char q c +:+ repr_chars q rest
  end.

(** The double quote character. *)
Definition dquote : ascii := ascii_of_N 34.

(** [c in s] for a character [c]. *)
Fixpoint str_contains (c : ascii) (s : string) : bool :=
  match s with
  | EmptyString => false
  | String c' rest => bool_decide (c' = c) || str_contains c rest
  end.

(** [repr(s)] for a [str]: single quotes, unless [s] has a single quote and
    no double quote. *)
Definition str_repr (s : string) : string :=
  let q := if str_contains "'" s && negb (str_contains dquote s) then dquote else "'"%char in
  String q (repr_chars q s +:+ String q "").

(** [sep.join(parts)] *)
Fixpoint join (sep : string) (parts : list string) : string :=
  match parts with
  | [] => ""
  | [p] => p
  | p :: rest => p +:+ sep +:+ join sep rest
  end.

(** ** The runtime

    What the module takes from the interpreter and is not defined here:
    [repr] of a [float]; [json.loads], with [None] standing for
    [json.JSONDecodeError]; and whether [csv.writer] quotes a field for a
    carriage return when the line terminator has none (recent CPython
    releases do, earlier ones do not).  The functions of this part are
    the module run by an interpreter without limits; the limits (the
    recursion depth, the number of digits [str] accepts for an [int], the
    exceptions of [json.loads] that are no [JSONDecodeError]) are added
    in [Limits] below. *)
Record runtime : Type := {
  float_repr : float → string;
  json_loads : string → option value;
  cr_is_special : bool
}.

Section Repr.
Variable rt : runtime.

(** [repr(v)] *)
Fixpoint py_repr (v : value) : string :=
  match v with
  | PyNone => "None"
  | PyBool b => if b then "True" else "False"
  | PyInt n => int_repr n
  | PyFloat x => float_repr rt x
  | PyStr s => str_repr s
  | PyList elts => "[" +:+ join ", " (py_repr <$> elts) +:+ "]"
  | PyDict items =>
      "{" +:+ join ", " ((λ kv, str_repr kv.1 +:+ ": " +:+ py_repr kv.2) <$> items) +:+ "}"
  end.

(** [str(v)]: a [str] is returned as it is, the other types have no
    [__str__] of their own and print as [repr] does. *)
Definition py_str (v : value) : string :=
  match v with
  | PyStr s => s
  | _ => py_repr v
  end.
End Repr.

(** ** Exceptions

    [csv.DictWriter] raises [ValueError] for a row with a key outside
    [fieldnames]; [csv.reader] raises [csv.Error] on a character after a
    line break in an unquoted field.  [str] raises [ValueError] for an
    [int] beyond the digit limit, and the interpreter [RecursionError]
    when the recursion limit is reached. *)

Inductive exn : Type := ValueError | csv_Error | RecursionError.

Inductive result (A : Type) : Type :=
| Return (a : A)
| Raise (e : exn).
Arguments Return {A} a.
Arguments Raise {A} e.

#[global] Instance result_ret : MRet result := λ A a, Return a.

#[global] Instance result_bind : MBind result := λ A B f m,
  match m with
  | Return a => f a
  | Raise e => Raise e
  end.

(** ** The dialect: excel with [lineterminator="\n"]

    The delimiter is a comma, the quote character a double quote,
    [doublequote=True], [escapechar=None], [skipinitialspace=False],
    [strict=False], [quoting=QUOTE_MINIMAL]. *)

Definition delimiter : ascii := ","%char.
Definition quotechar : ascii := dquote.
Definition LF : ascii := ascii_of_N 10.
Definition CR : ascii := ascii_of_N 13.
Definition lineterminator : string := String LF "".

(** ** [csv.writer] *)

Section Writer.
Variable rt : runtime.

(** The characters that make the writer quote a field. *)
Definition csv_special (c : ascii) : bool :=
  bool_decide (c = delimiter) || bool_decide (c = quotechar)
  || str_contains c lineterminator
  || (cr_is_special rt && (bool_decide (c = LF) || bool_decide (c = CR))).

Fixpoint csv_quoted (s : string) : bool :=
  match s with
  | EmptyString => false
  | String c rest => csv_special c || csv_quoted rest
  end.

(** The field data as copied into the record: a quote character is
    doubled. *)
Fixpoint csv_copy (s : string) : string :=
  match s with
  | EmptyString => ""
  | String c rest =>
      if bool_decide (c = quotechar) then String quotechar (String c (csv_copy rest))
      else String c (csv_copy rest)
  end.

(** The record under construction and the number of fields joined so
    far. *)
Record writer : Type := { rec : string; num_fields : nat }.

(** [join_append]: [field] is [None] for a null field; [quoted] asks for
    quotes whatever the data. *)
Definition join_append (w : writer) (field : option string) (quoted : bool) : writer :=
  let data := default "" field in
  let quoted := quoted || csv_quoted data in
  let sep := if bool_decide (0 < num_fields w) then String delimiter "" else "" in
  let body := if quoted then String quotechar (csv_copy data +:+ String quotechar "")
              else csv_copy data in
  {| rec := rec w +:+ sep +:+ body; num_fields := S (num_fields w) |}.

(** One field of [writerow]: a [str] is written as it is, [None] as a
    null field, anything else through [str]. *)
Definition append_field (w : writer) (field : value) : writer :=
  match field with
  | PyStr s => join_append w (Some s) false
  | PyNone => join_append w None false
  | _ => join_append w (Some (py_str rt field)) false
  end.

(** [writer.writerow(fields)]: the text written to the file.  A record
    of one empty field is written as a pair of quotes. *)
Definition csv_writerow (fields : list value) : string :=
  let w := foldl append_field {| rec := ""; num_fields := 0 |} fields in
  let w := if bool_decide (0 < num_fields w) && bool_decide (String.length (rec w) = 0)
           then join_append {| rec := rec w; num_fields := num_fields w - 1 |} None true
           else w in
  rec w +:+ lineterminator.
End Writer.

(** ** [csv.DictWriter(output, fieldnames=all_keys, lineterminator="\n")]

    [restval] is the empty string and [extrasaction] is [raise], the
    defaults. *)

Section DictWriter.
Variable rt : runtime.
Variable fieldnames : list string.

Definition restval : value := PyStr "".

(** [DictWriter._dict_to_list] *)
Definition _dict_to_list (rowdict : list (string * value)) : result (list value) :=
  let wrong_fields := filter (λ k, k ∉ fieldnames) (dict_keys rowdict) in
  match wrong_fields with
  | [] => Return ((λ key, default restval (dict_get key rowdict)) <$> fieldnames)
  | _ => Raise ValueError
  end.

(** [DictWriter.writerow] *)
Definition writerow (rowdict : list (string * value)) : result string :=
  fields ← _dict_to_list rowdict; mret (csv_writerow rt fields).

(** [DictWriter.writeheader] *)
Definition writeheader : result string :=
  let header := dict_of_items (zip fieldnames (PyStr <$> fieldnames)) in
  writerow header.

(** [DictWriter.writerows] *)
Fixpoint writerows (rowdicts : list (list (string * value))) : result string :=
  match rowdicts with
  | [] => Return ""
  | rowdict :: rest =>
      line ← writerow rowdict;
      lines ← writerows rest;
      mret (line +:+ lines)
  end.
End DictWriter.

(** ** [formatters.py] *)

Section Formatters.
Variable rt : runtime.

(** [new_key = f"{parent_key}{sep}{k}" if parent_key else k] *)
Definition new_key_of (parent_key sep k : string) : string :=
  if bool_decide (parent_key = "") then k else parent_key +:+ sep +:+ k.

(** What the body of the loop of [_flatten_dict] adds to [items] for the
    value [v] met under [new_key]; for a dict, the items of the
    recursive call. *)
Fixpoint flatten_value (v : value) (new_key sep : string) : list (string * value) :=
  match v with
  | PyDict d =>
      dict_of_items
        ((fix loop (d : list (string * value)) : list (string * value) :=
            match d with
            | [] => []
            | (k, v) :: rest =>
                flatten_value v (new_key_of new_key sep k) sep ++ loop rest
            end) d)
  | PyList _ => [(new_key, PyStr (py_str rt v))]
  | _ => [(new_key, v)]
  end.

(** [items] after the loop [for k, v in d.items()]. *)
Fixpoint flatten_loop (d : list (string * value)) (parent_key sep : string)
    : list (string * value) :=
  match d with
  | [] => []
  | (k, v) :: rest =>
      flatten_value v (new_key_of parent_key sep k) sep ++ flatten_loop rest parent_key sep
  end.

(** [_flatten_dict(d, parent_key, sep)], lines 91 to 104: [dict(items)]. *)
Definition _flatten_dict (d : list (string * value)) (parent_key sep : string)
    : list (string * value) :=
  dict_of_items (flatten_loop d parent_key sep).

(** [records], lines 29 to 45 of [json_to_csv]. *)
Definition records_of (data : value) : list value :=
  match data with
  | PyDict d =>
      match dict_get "results" d with
      | Some results_value =>
          match results_value with
          | PyList elts => elts
          | PyDict _ => [results_value]
          | _ => [results_value]
          end
      | None =>
          match dict_get "last" d with
          | Some last => if is_dict last then [last] else [data]
          | None => [data]
          end
      end
  | PyList elts => elts
  | _ => [data]
  end.

(** The body of the loop that fills [flattened_records], lines 49 to
    54. *)
Definition flatten_record (record : value) : list (string * value) :=
  match record with
  | PyDict d => _flatten_dict d "" "_"
  | _ => [("value", PyStr (py_str rt record))]
  end.

(** The loops that fill [all_keys], lines 60 to 67: the state is
    [(all_keys, seen)]. *)
Definition scan_key (st : list string * gset string) (key : string)
    : list string * gset string :=
  if decide (key ∈ st.2) then st else (st.1 ++ [key], {[key]} ∪ st.2).

Definition scan_record (st : list string * gset string) (record : list (string * value))
    : list string * gset string :=
  foldl scan_key st (dict_keys record).

Definition all_keys_of (flattened_records : list (list (string * value))) : list string :=
  (foldl scan_record ([], ∅) flattened_records).1.

(** [json_to_csv] from line 29 on, [data] being parsed. *)
Definition convert (data : value) : result string :=
  let records := records_of data in
  let flattened_records := flatten_record <$> records in
  match flattened_records with
  | [] => Return ""
  | _ =>
      let all_keys := all_keys_of flattened_records in
      header ← writeheader rt all_keys;
      rows ← writerows rt all_keys flattened_records;
      mret (header +:+ rows)
  end.

(** [json_to_csv(json_input)]: a [str] is parsed first, lines 20 to 27,
    and a text that does not parse gives the empty text. *)
Definition json_to_csv (json_input : value) : result string :=
  match json_input with
  | PyStr s =>
      match json_loads rt s with
      | Some data => convert data
      | None => Return ""
      end
  | _ => convert json_input
  end.
End Formatters.

(** ** [csv.reader] over the lines of [io.StringIO(text)]

    The states the dialect can reach; the end of a line is signalled to
    the parser by [None].  [csv.field_size_limit] is not modelled. *)

Inductive parser_state : Type :=
| START_RECORD | START_FIELD | IN_FIELD | IN_QUOTED_FIELD
| QUOTE_IN_QUOTED_FIELD | EAT_CRNL.

#[global] Instance parser_state_eq_dec : EqDecision parser_state.
Proof. solve_decision. Defined.

Record reader : Type := {
  state : parser_state;
  field : string;
  fields : list string
}.

(** [parse_reset]: the parser at the start of a record. *)
Definition parse_reset : reader :=
  {| state := START_RECORD; field := ""; fields := [] |}.

(** [self->state = st] *)
Definition set_state (r : reader) (st : parser_state) : reader :=
  {| state := st; field := field r; fields := fields r |}.

(** [parse_save_field]: the field read so far joins the record. *)
Definition parse_save_field (r : reader) : reader :=
  {| state := state r; field := ""; fields := fields r ++ [field r] |}.

(** [parse_add_char] *)
Definition parse_add_char (r : reader) (c : ascii) : reader :=
  {| state := state r; field := field r +:+ String c ""; fields := fields r |}.

(** A line feed, a carriage return, or the end of the line. *)
Definition is_newline (c : option ascii) : bool :=
  match c with
  | None => true
  | Some c => bool_decide (c = LF) || bool_decide (c = CR)
  end.

(** The state after a record ended on [c]. *)
Definition after_newline (c : option ascii) : parser_state :=
  match c with None => START_RECORD | Some _ => EAT_CRNL end.

(** The case [START_FIELD] of [parse_process_char], which the case
    [START_RECORD] falls into. *)
Definition start_field (r : reader) (c : option ascii) : result reader :=
  if is_newline c then Return (set_state (parse_save_field r) (after_newline c))
  else if bool_decide (c = Some quotechar) then Return (set_state r IN_QUOTED_FIELD)
  else if bool_decide (c = Some delimiter) then Return (parse_save_field r)
  else match c with
       | Some c => Return (set_state (parse_add_char r c) IN_FIELD)
       | None => Return r
       end.

(** [parse_process_char]: one step of the parser. *)
Definition parse_process_char (r : reader) (c : option ascii) : result reader :=
  match state r with
  | START_RECORD =>
      match c with
      | None => Return r
      | Some c' =>
          if bool_decide (c' = LF) || bool_decide (c' = CR) then Return (set_state r EAT_CRNL)
          else start_field (set_state r START_FIELD) c
      end
  | START_FIELD => start_field r c
  | IN_FIELD =>
      if is_newline c then Return (set_state (parse_save_field r) (after_newline c))
      else if bool_decide (c = Some delimiter)
      then Return (set_state (parse_save_field r) START_FIELD)
      else match c with
           | Some c => Return (parse_add_char r c)
           | None => Return r
           end
  | IN_QUOTED_FIELD =>
      match c with
      | None => Return r
      | Some c =>
          if bool_decide (c = quotechar) then Return (set_state r QUOTE_IN_QUOTED_FIELD)
          else Return (parse_add_char r c)
      end
  | QUOTE_IN_QUOTED_FIELD =>
      if bool_decide (c = Some quotechar)
      then Return (set_state (parse_add_char r quotechar) IN_QUOTED_FIELD)
      else if bool_decide (c = Some delimiter)
      then Return (set_state (parse_save_field r) START_FIELD)
      else if is_newline c then Return (set_state (parse_save_field r) (after_newline c))
      else match c with
           | Some c => Return (set_state (parse_add_char r c) IN_FIELD)
           | None => Return r
           end
  | EAT_CRNL =>
      match c with
      | None => Return (set_state r START_RECORD)
      | Some c =>
          if bool_decide (c = LF) || bool_decide (c = CR) then Return r
          else Raise csv_Error
      end
  end.

(** The characters of a line, one step each. *)
Fixpoint parse_chars (r : reader) (line : string) : result reader :=
  match line with
  | EmptyString => Return r
  | String c rest => r ← parse_process_char r (Some c); parse_chars r rest
  end.

(** One line given to the parser, then the end of the line. *)
Definition parse_line (r : reader) (line : string) : result reader :=
  r ← parse_chars r line; parse_process_char r None.

(** [Reader_iternext], called until the lines are exhausted: a record is
    complete when a line ends in state [START_RECORD]; at the end of the
    input an unfinished record is returned as it stands. *)
Fixpoint read_records (r : reader) (lines : list string) : result (list (list string)) :=
  match lines with
  | [] =>
      if bool_decide (field r ≠ "") || bool_decide (state r = IN_QUOTED_FIELD)
      then Return [fields (parse_save_field r)]
      else Return []
  | line :: rest =>
      r ← parse_line r line;
      if bool_decide (state r = START_RECORD)
      then records ← read_records parse_reset rest; mret (fields r :: records)
      else read_records r rest
  end.

(** The lines [io.StringIO(text)] iterates over: each ends after a line
    feed, the last one may end with the text. *)
Fixpoint lines_from (cur text : string) : list string :=
  match text with
  | EmptyString => if bool_decide (cur = "") then [] else [cur]
  | String c rest =>
      if bool_decide (c = LF) then (cur +:+ String c "") :: lines_from "" rest
      else lines_from (cur +:+ String c "") rest
  end.

(** [list(csv.reader(io.StringIO(text)))] *)
Definition csv_read (text : string) : result (list (list string)) :=
  read_records parse_reset (lines_from "" text).

(** ** Definitions used to state the properties *)

(** The text of a document given as its lines, each closed by the line
    terminator. *)
Fixpoint text_of_lines (ls : list string) : string :=
  match ls with
  | [] => ""
  | l :: rest => l +:+ lineterminator +:+ text_of_lines rest
  end.

(** The concatenation of a list of texts. *)
Definition str_concat (parts : list string) : string :=
  foldr String.append "" parts.

(** A field between quotes. *)
Definition in_quotes (s : string) : string :=
  String quotechar (s +:+ String quotechar "").

Section WriterView.
Variable rt : runtime.

(** The data the writer holds for a field before any quoting. *)
Definition cell_text (v : value) : string :=
  match v with
  | PyStr s => s
  | PyNone => ""
  | _ => py_str rt v
  end.

(** A field as it stands in the record. *)
Definition render_field (s : string) : string :=
  if csv_quoted rt s then in_quotes (csv_copy s) else s.

(** A record without its line terminator. *)
Definition row_text (cells : list string) : string :=
  match cells with
  | [] => ""
  | _ => let body := join (String delimiter "") (render_field <$> cells) in
         if bool_decide (body = "") then in_quotes "" else body
  end.

(** A field the reader gives back as written: one with a carriage
    return must have been quoted. *)
Definition reads_back (s : string) : Prop :=
  csv_quoted rt s = true ∨ str_contains CR s = false.

(** The fields taken from a row for the columns [fieldnames]. *)
Definition cells_of (fieldnames : list string) (row : list (string * value)) : list value :=
  (λ key, default restval (dict_get key row)) <$> fieldnames.
End WriterView.

(** The flat rows and the header [json_to_csv] computes for parsed data. *)
Definition flat_rows (rt : runtime) (data : value) : list (list (string * value)) :=
  flatten_record rt <$> records_of data.

(** [all_keys] for parsed data. *)
Definition header_of (rt : runtime) (data : value) : list string :=
  all_keys_of (flat_rows rt data).

(** The input once parsed; [None] when parsing fails. *)
Definition parsed (rt : runtime) (json_input : value) : option value :=
  match json_input with
  | PyStr s => json_loads rt s
  | _ => Some json_input
  end.

(** What the reader returns when the lines are exhausted. *)
Definition end_of_input (r : reader) : result (list (list string)) :=
  if bool_decide (field r ≠ "") || bool_decide (state r = IN_QUOTED_FIELD)
  then Return [fields (parse_save_field r)]
  else Return [].

(** The reader in one pass over the text: [pending] tells whether the
    current line has characters. *)
Fixpoint scan_text (r : reader) (pending : bool) (text : string)
    : result (list (list string)) :=
  match text with
  | EmptyString =>
      if pending then
        r ← parse_process_char r None;
        if bool_decide (state r = START_RECORD) then Return [fields r] else end_of_input r
      else end_of_input r
  | String c rest =>
      r ← parse_process_char r (Some c);
      if bool_decide (c = LF) then
        r ← parse_process_char r None;
        if bool_decide (state r = START_RECORD)
        then records ← scan_text parse_reset false rest; mret (fields r :: records)
        else scan_text r false rest
      else scan_text r true rest
  end.

(** Appending an element to a list that does not have it yet. *)
Definition add_new (acc : list string) (x : string) : list string :=
  if decide (x ∈ acc) then acc else acc ++ [x].

(** The distinct elements of a list, each at the place of its first
    occurrence. *)
Fixpoint first_seen (l : list string) : list string :=
  match l with
  | [] => []
  | x :: rest => x :: filter (λ y, y ≠ x) (first_seen rest)
  end.

Section Paths.
Variable rt : runtime.

(** The column a value ends in: a list as its text, the rest as it
    is. *)
Definition leaf_value (v : value) : value :=
  match v with
  | PyList _ => PyStr (py_str rt v)
  | _ => v
  end.

(** The leaves of a value in depth-first order with their joined keys,
    nothing merged. *)
Fixpoint leaves_value (v : value) (new_key sep : string) : list (string * value) :=
  match v with
  | PyDict d =>
      (fix loop (d : list (string * value)) : list (string * value) :=
         match d with
         | [] => []
         | (k, v) :: rest =>
             leaves_value v (new_key_of new_key sep k) sep ++ loop rest
         end) d
  | _ => [(new_key, leaf_value v)]
  end.

(** The leaves of the items of a dict. *)
Fixpoint leaves (d : list (string * value)) (parent_key sep : string)
    : list (string * value) :=
  match d with
  | [] => []
  | (k, v) :: rest =>
      leaves_value v (new_key_of parent_key sep k) sep ++ leaves rest parent_key sep
  end.

(** The key a path of nested keys is joined into, below [parent_key]. *)
Definition path_key (parent_key sep : string) (path : list string) : string :=
  foldl (λ prefix k, new_key_of prefix sep k) parent_key path.
End Paths.

(** [at_path d path v]: following the keys of [path] through nested dicts
    from [d] leads to [v]. *)
Inductive at_path : list (string * value) → list string → value → Prop :=
| at_path_here d k v :
    (k, v) ∈ d → at_path d [k] v
| at_path_below d k d' path v :
    (k, PyDict d') ∈ d → at_path d' path v → at_path d (k :: path) v.

(** ** A runtime to evaluate examples with

    The examples hold no float; the texts they parse are listed, [not
    json] and the like do not parse. *)
Definition sample_loads (s : string) : option value :=
  if bool_decide (s = "null") then Some PyNone
  else if bool_decide (s = "[]") then Some (PyList [])
  else if bool_decide (s = "{}") then Some (PyDict [])
  else if bool_decide (s = "[1, 2]") then Some (PyList [PyInt 1; PyInt 2])
  else None.

(** The writer of this runtime does not quote for a carriage return
    alone. *)
Definition sample_runtime : runtime :=
  {| float_repr := λ _, "nan"; json_loads := sample_loads; cr_is_special := false |}.

(** *** The inputs of section 8 of the specification, parsed *)

(** [{"results": [{"a": 1}, {"a": 2, "b": 3}]}] *)
Definition results_list_input : value :=
  PyDict [("results", PyList [PyDict [("a", PyInt 1)];
                              PyDict [("a", PyInt 2); ("b", PyInt 3)]])].

(** [{"results": [{"a": {"b": 1, "c": 2}}]}] *)
Definition nested_input : value :=
  PyDict [("results", PyList [PyDict [("a", PyDict [("b", PyInt 1); ("c", PyInt 2)])]])].

(** [{"results": [{"tags": ["x", "y"]}]}] *)
Definition tags_input : value :=
  PyDict [("results", PyList [PyDict [("tags", PyList [PyStr "x"; PyStr "y"])]])].

(** [{"results": [1, 2]}] *)
Definition scalars_input : value :=
  PyDict [("results", PyList [PyInt 1; PyInt 2])].

(** ** Definitions used to state the further properties *)

(** A value that is neither a dict nor a list. *)
Definition is_scalar (v : value) : bool := negb (is_dict v) && negb (is_list v).

(** A key that takes part in a joined key without ambiguity: not empty,
    and without the separator. *)
Definition plain_key (k : string) : Prop := k ≠ "" ∧ str_contains "_" k = false.

(** [plain_keys v]: in every dict the flattener goes through, the keys are
    distinct and plain. *)
Fixpoint plain_keys (v : value) : Prop :=
  match v with
  | PyDict d =>
      NoDup (dict_keys d)
      ∧ (fix all (d : list (string * value)) : Prop :=
           match d with
           | [] => True
           | (k, w) :: rest => plain_key k ∧ plain_keys w ∧ all rest
           end) d
  | _ => True
  end.

(** The number of occurrences of a character in a text. *)
Fixpoint count_char (c : ascii) (s : string) : nat :=
  match s with
  | EmptyString => 0
  | String c' rest => (if bool_decide (c' = c) then 1 else 0) + count_char c rest
  end.

(** The leaves of a record, before any merge: those of a dict from the
    top, and the one item [value] for a record that is not a dict. *)
Definition record_leaves (rt : runtime) (record : value) : list (string * value) :=
  match record with
  | PyDict d => leaves rt d "" "_"
  | _ => [("value", PyStr (py_str rt record))]
  end.

(** The text is a header line followed by one line for each extracted
    record: lines without a line feed of their own, each closed by the
    line terminator. *)
Definition one_line_each (data : value) (text : string) : Prop :=
  ∃ lines, length lines = 1 + length (records_of data)
    ∧ Forall (λ l, count_char LF l = 0) lines
    ∧ text = text_of_lines lines.

(** [{"results": [{"a": "x\ny"}]}]: a field with a line feed. *)
Definition line_feed_input : value :=
  PyDict [("results", PyList [PyDict [("a", PyStr (String "x" (String LF "y")))]])].

(** [{"a": {"b": [1, 2]}, "a_b": 7}]: the list at the path [a], [b] and
    the later key [a_b] are joined into the same key. *)
Definition sequence_collision : list (string * value) :=
  [("a", PyDict [("b", PyList [PyInt 1; PyInt 2])]); ("a_b", PyInt 7)].

(** [{"a_b": null, "a": {"b": 5}}]: the [None] under [a_b] and the later
    path [a], [b] are joined into the same key. *)
Definition null_collision : list (string * value) :=
  [("a_b", PyNone); ("a", PyDict [("b", PyInt 5)])].

(** ** The limits of the interpreter

    [json_to_csv] catches [json.JSONDecodeError], line 23, and nothing
    else; what the interpreter raises besides reaches the caller:
    - [str] of an [int] with more digits than
      [sys.get_int_max_str_digits()] (4300 unless set otherwise, 0 for no
      limit) raises [ValueError]; so does [repr] of a list or dict that
      holds such an [int], and [csv.writer] for such a field;
    - [json.loads] raises [ValueError] for an integer literal with more
      digits than that, and [RecursionError] for a text nested too deep;
      neither is a [JSONDecodeError];
    - the recursion of [_flatten_dict] and of [repr] raises
      [RecursionError] on a record nested deeper than the frames left.

    [Limits] is the module again, run by an interpreter with these
    limits: every function that calls [str] returns a [result].  The
    digit limit is modelled as CPython counts it.  The depth at which the
    recursion stops depends on the frames in use when [json_to_csv] is
    called, and is left to the interpreter as [recursion_ok], asked once
    for each record before it is flattened. *)

Module Limits.

Record interpreter : Type := {
  (** [repr] of a float, [json.loads] with [None] for [JSONDecodeError],
      the quoting of carriage returns. *)
  base : runtime;
  (** The exception [json.loads] raises on a text, when it raises one that
      is not a [JSONDecodeError]. *)
  loads_raises : string → option exn;
  (** [sys.get_int_max_str_digits()] *)
  max_str_digits : nat;
  (** Whether flattening and printing a record stays within the recursion
      limit. *)
  recursion_ok : value → bool
}.

Section Interpreter.
Variable it : interpreter.

(** The number of decimal digits of an [int], the sign apart. *)
Definition int_digits (n : Z) : nat := String.length (int_repr (Z.abs n)).

(** The [int] is within the digit limit. *)
Definition int_ok (n : Z) : bool :=
  (max_str_digits it =? 0)%nat || (int_digits n <=? max_str_digits it)%nat.

(** [str(n)] for an [int]. *)
Definition int_str (n : Z) : result string :=
  if int_ok n then Return (int_repr n) else Raise ValueError.

(** [repr(v)]: the elements of a list and the values of a dict are
    printed in order, and the first failure is the failure of the
    whole. *)
Fixpoint py_repr (v : value) : result string :=
  match v with
  | PyNone => Return "None"
  | PyBool b => Return (if b then "True" else "False")
  | PyInt n => int_str n
  | PyFloat x => Return (float_repr (base it) x)
  | PyStr s => Return (str_repr s)
  | PyList elts =>
      parts ← mapM py_repr elts;
      mret ("[" +:+ join ", " parts +:+ "]")
  | PyDict items =>
      parts ← mapM (λ kv, text ← py_repr kv.2; mret (str_repr kv.1 +:+ ": " +:+ text)) items;
      mret ("{" +:+ join ", " parts +:+ "}")
  end.

(** [str(v)] *)
Definition py_str (v : value) : result string :=
  match v with
  | PyStr s => Return s
  | _ => py_repr v
  end.

(** Every [int] held by the value, at any depth, is within the digit
    limit. *)
Fixpoint ints_ok (v : value) : bool :=
  match v with
  | PyInt n => int_ok n
  | PyList elts => forallb ints_ok elts
  | PyDict items => forallb (λ kv, ints_ok kv.2) items
  | _ => true
  end.

(** [join_append] after [str(field)], as [csv.writer] does for a field
    that is neither a [str] nor [None]. *)
Definition append_field (w : writer) (field : value) : result writer :=
  match field with
  | PyStr s => Return (join_append (base it) w (Some s) false)
  | PyNone => Return (join_append (base it) w None false)
  | _ => text ← py_str field; mret (join_append (base it) w (Some text) false)
  end.

Fixpoint append_fields (w : writer) (fields : list value) : result writer :=
  match fields with
  | [] => Return w
  | field :: rest => w ← append_field w field; append_fields w rest
  end.

(** [writer.writerow(fields)] *)
Definition csv_writerow (fields : list value) : result string :=
  w ← append_fields {| rec := ""; num_fields := 0 |} fields;
  let w := if bool_decide (0 < num_fields w) && bool_decide (String.length (rec w) = 0)
           then join_append (base it) {| rec := rec w; num_fields := num_fields w - 1 |} None true
           else w in
  mret (rec w +:+ lineterminator).

(** [DictWriter.writerow] *)
Definition writerow (fieldnames : list string) (rowdict : list (string * value))
    : result string :=
  fields ← _dict_to_list fieldnames rowdict; csv_writerow fields.

(** [DictWriter.writeheader] *)
Definition writeheader (fieldnames : list string) : result string :=
  let header := dict_of_items (zip fieldnames (PyStr <$> fieldnames)) in
  writerow fieldnames header.

(** [DictWriter.writerows] *)
Fixpoint writerows (fieldnames : list string) (rowdicts : list (list (string * value)))
    : result string :=
  match rowdicts with
  | [] => Return ""
  | rowdict :: rest =>
      line ← writerow fieldnames rowdict;
      lines ← writerows fieldnames rest;
      mret (line +:+ lines)
  end.

(** The body of the loop of [_flatten_dict], lines 93 to 102. *)
Fixpoint flatten_value (v : value) (new_key sep : string) : result (list (string * value)) :=
  match v with
  | PyDict d =>
      items ← (fix loop (d : list (string * value)) : result (list (string * value)) :=
                 match d with
                 | [] => Return []
                 | (k, v) :: rest =>
                     here ← flatten_value v (new_key_of new_key sep k) sep;
                     after ← loop rest;
                     mret (here ++ after)
                 end) d;
      mret (dict_of_items items)
  | PyList _ => text ← py_str v; mret [(new_key, PyStr text)]
  | _ => Return [(new_key, v)]
  end.

Fixpoint flatten_loop (d : list (string * value)) (parent_key sep : string)
    : result (list (string * value)) :=
  match d with
  | [] => Return []
  | (k, v) :: rest =>
      here ← flatten_value v (new_key_of parent_key sep k) sep;
      after ← flatten_loop rest parent_key sep;
      mret (here ++ after)
  end.

(** [_flatten_dict(d, parent_key, sep)] *)
Definition _flatten_dict (d : list (string * value)) (parent_key sep : string)
    : result (list (string * value)) :=
  items ← flatten_loop d parent_key sep; mret (dict_of_items items).

(** Lines 49 to 54 for one record. *)
Definition flatten_record (record : value) : result (list (string * value)) :=
  if recursion_ok it record then
    match record with
    | PyDict d => _flatten_dict d "" "_"
    | _ => text ← py_str record; mret [("value", PyStr text)]
    end
  else Raise RecursionError.

(** [json_to_csv] from line 29 on. *)
Definition convert (data : value) : result string :=
  let records := records_of data in
  flattened_records ← mapM flatten_record records;
  match flattened_records with
  | [] => Return ""
  | _ =>
      let all_keys := all_keys_of flattened_records in
      header ← writeheader all_keys;
      rows ← writerows all_keys flattened_records;
      mret (header +:+ rows)
  end.

(** [json_to_csv(json_input)]: an exception of [json.loads] that is not a
    [JSONDecodeError] is not caught. *)
Definition json_to_csv (json_input : value) : result string :=
  match json_input with
  | PyStr s =>
      match loads_raises it s with
      | Some e => Raise e
      | None =>
          match json_loads (base it) s with
          | Some data => convert data
          | None => Return ""
          end
      end
  | _ => convert json_input
  end.
End Interpreter.
End Limits.

(** A text of [n] times the character [c]. *)
Fixpoint str_repeat (c : ascii) (n : nat) : string :=
  match n with
  | 0 => ""
  | S n => String c (str_repeat c n)
  end.

(** The text is made of the digits 1 to 9 only. *)
Fixpoint nonzero_digits (s : string) : bool :=
  match s with
  | EmptyString => true
  | String c rest =>
      (49 <=? N_of_ascii c)%N && (N_of_ascii c <=? 57)%N && nonzero_digits rest
  end.

(** An [int] of 4301 digits, one more than the digit limit of CPython:
    [10 ** 4300]. *)
Definition big_int : Z := 10 ^ 4300.

(** An interpreter to evaluate examples with: [sample_runtime] with the
    digit limit of CPython, 4300.  [json.loads] raises [ValueError] on an
    integer literal of more digits, and the examples are not nested deep
    enough to meet the recursion limit. *)
Definition sample_interpreter : Limits.interpreter :=
  {| Limits.base := sample_runtime;
     Limits.loads_raises := λ s,
       if nonzero_digits s && (4300 <? String.length s)%nat then Some ValueError else None;
     Limits.max_str_digits := 4300;
     Limits.recursion_ok := λ _, true |}.

(** * Properties *)

(** Induction over a value, with the hypothesis available for every element
    of a list and every item value of a dict. *)
Lemma value_ind (P : value → Prop)
    (HNone : P PyNone)
    (HBool : ∀ b, P (PyBool b))
    (HInt : ∀ n, P (PyInt n))
    (HFloat : ∀ x, P (PyFloat x))
    (HStr : ∀ s, P (PyStr s))
    (HList : ∀ elts, Forall P elts → P (PyList elts))
    (HDict : ∀ items, Forall (λ kv, P kv.2) items → P (PyDict items)) :
  ∀ v, P v.
Proof.
  fix IH 1. intros [ | b | n | x | s | elts | items ].
  - exact HNone.
  - apply HBool.
  - apply HInt.
  - apply HFloat.
  - apply HStr.
  - apply HList. induction elts as [ | e elts IHe ]; constructor; [ apply IH | exact IHe ].
  - apply HDict. induction items as [ | [k w] items IHi ]; constructor;
      [ apply IH | exact IHi ].
Qed.


(** ** First occurrences *)

Lemma filter_filter_ne (acc : list string) (x : string) (l : list string) :
  filter (λ y, y ∉ acc ++ [x]) l = filter (λ y, y ∉ acc) (filter (λ y, y ≠ x) l).
Proof.
  induction l as [ | y l IH ]; [ done | ].
  rewrite (filter_cons (λ y, y ≠ x)).
  destruct (decide (y ≠ x)) as [Hne | Heq].
  - rewrite !filter_cons.
    destruct (decide (y ∉ acc ++ [x])) as [Hn | Hin], (decide (y ∉ acc)) as [Hn' | Hin'].
    + by rewrite IH.
    + exfalso. apply Hin'. intros ?. apply Hn. set_solver.
    + exfalso. apply Hin. set_solver.
    + exact IH.
  - apply dec_stable in Heq. subst y. rewrite filter_cons.
    destruct (decide (x ∉ acc ++ [x])) as [Hn | _]; [ | exact IH ].
    exfalso. apply Hn. set_solver.
Qed.

Lemma filter_absorb_ne (acc : list string) (x : string) (l : list string) :
  x ∈ acc → filter (λ y, y ∉ acc) (filter (λ y, y ≠ x) l) = filter (λ y, y ∉ acc) l.
Proof.
  intros Hx. induction l as [ | y l IH ]; [ done | ].
  rewrite (filter_cons (λ y, y ≠ x)).
  destruct (decide (y ≠ x)) as [Hne | Heq].
  - rewrite !filter_cons. destruct (decide (y ∉ acc)); by rewrite IH.
  - apply dec_stable in Heq. subst y. rewrite filter_cons.
    destruct (decide (x ∉ acc)) as [Hn | _]; [ done | exact IH ].
Qed.

Lemma foldl_add_new (acc ks : list string) :
  foldl add_new acc ks = acc ++ filter (λ y, y ∉ acc) (first_seen ks).
Proof.
  revert acc. induction ks as [ | x ks IH ]; intros acc; simpl.
  - by rewrite app_nil_r.
  - rewrite IH. unfold add_new. rewrite filter_cons.
    destruct (decide (x ∈ acc)) as [Hin | Hnin].
    + destruct (decide (x ∉ acc)) as [Hn | _]; [ done | ].
      by rewrite filter_absorb_ne.
    + destruct (decide (x ∉ acc)) as [_ | Hn]; [ | done ].
      by rewrite filter_filter_ne, <- app_assoc.
Qed.

Lemma first_seen_elem (x : string) (l : list string) : x ∈ first_seen l ↔ x ∈ l.
Proof.
  induction l as [ | y l IH ]; simpl; [ done | ].
  rewrite !elem_of_cons, list_elem_of_filter, IH.
  destruct (decide (x = y)); naive_solver.
Qed.

Lemma first_seen_NoDup (l : list string) : NoDup (first_seen l).
Proof.
  induction l as [ | y l IH ]; simpl; constructor.
  - rewrite list_elem_of_filter. naive_solver.
  - by apply NoDup_filter.
Qed.

Lemma filter_all {A : Type} (P : A → Prop) `{∀ x, Decision (P x)} (l : list A) :
  (∀ x, x ∈ l → P x) → filter P l = l.
Proof.
  induction l as [ | y l IH ]; intros HP; [ done | ].
  rewrite filter_cons. destruct (decide (P y)) as [ _ | Hn ].
  - f_equal. apply IH. intros x Hx. apply HP. by right.
  - exfalso. apply Hn, HP. by left.
Qed.

Lemma foldl_add_new_nil (l : list string) : foldl add_new [] l = first_seen l.
Proof.
  rewrite foldl_add_new. simpl. apply filter_all. intros x _. apply not_elem_of_nil.
Qed.

Lemma first_seen_app (p q : list string) :
  first_seen (p ++ q) = first_seen p ++ filter (λ y, y ∉ p) (first_seen q).
Proof.
  rewrite <- (foldl_add_new_nil (p ++ q)), foldl_app, foldl_add_new_nil, foldl_add_new.
  f_equal. apply list_filter_iff. intros x. by rewrite first_seen_elem.
Qed.

Lemma first_seen_NoDup_id (l : list string) : NoDup l → first_seen l = l.
Proof.
  induction 1 as [ | x l Hx _ IH ]; simpl; [ done | ].
  rewrite IH. f_equal. apply filter_all. intros y Hy ->. contradiction.
Qed.

(** ** Dicts *)

Section DictFacts.
Context {V : Type}.
Implicit Types (d items : list (string * V)) (k : string) (v : V).

Lemma dict_get_set k k' v d :
  dict_get k (dict_set k' v d) = if decide (k' = k) then Some v else dict_get k d.
Proof.
  induction d as [ | [k0 v0] d IH ]; csimpl.
  - by destruct (decide (k' = k)).
  - destruct (decide (k0 = k')) as [-> | Hne]; csimpl.
    + by destruct (decide (k' = k)).
    + rewrite IH. destruct (decide (k0 = k)) as [-> | ]; [ | done ].
      by destruct (decide (k' = k)); [ subst | ].
Qed.

Lemma dict_keys_set k v d : dict_keys (dict_set k v d) = add_new (dict_keys d) k.
Proof.
  unfold add_new, dict_keys. induction d as [ | [k0 v0] d IH ]; csimpl.
  - destruct (decide (k ∈ [])) as [Hin | _]; [ | done ]. by apply elem_of_nil in Hin.
  - destruct (decide (k0 = k)) as [-> | Hne]; csimpl.
    + destruct (decide (k ∈ k :: d.*1)) as [_ | Hn]; [ done | ].
      exfalso. apply Hn. by left.
    + rewrite IH. destruct (decide (k ∈ d.*1)) as [Hin | Hnin].
      * destruct (decide (k ∈ k0 :: d.*1)) as [_ | Hn]; [ done | ].
        exfalso. apply Hn. by right.
      * destruct (decide (k ∈ k0 :: d.*1)) as [Hin | _]; [ | done ].
        apply elem_of_cons in Hin as [-> | Hin]; [ by destruct Hne | contradiction ].
Qed.

Lemma dict_get_None k d : dict_get k d = None ↔ k ∉ dict_keys d.
Proof.
  unfold dict_keys. induction d as [ | [k0 v0] d IH ]; csimpl.
  - split; [ intros _; apply not_elem_of_nil | done ].
  - rewrite not_elem_of_cons. destruct (decide (k0 = k)) as [-> | Hne].
    + split; [ done | intros [? _]; done ].
    + rewrite IH. split; [ intros ?; split; [ congruence | done ] | by intros [_ ?] ].
Qed.

Lemma dict_get_elem k v d : dict_get k d = Some v → (k, v) ∈ d.
Proof.
  induction d as [ | [k0 v0] d IH ]; csimpl; [ done | ].
  destruct (decide (k0 = k)) as [-> | Hne].
  - intros [= ->]. by left.
  - intros Hg. right. by apply IH.
Qed.

Lemma dict_get_NoDup k v d : NoDup (dict_keys d) → (k, v) ∈ d → dict_get k d = Some v.
Proof.
  unfold dict_keys. induction d as [ | [k0 v0] d IH ]; csimpl; intros Hnd Hin.
  - by apply elem_of_nil in Hin.
  - apply NoDup_cons in Hnd as [Hk0 Hnd].
    apply elem_of_cons in Hin as [[= -> ->] | Hin].
    + by rewrite decide_True.
    + rewrite decide_False; [ by apply IH | ].
      intros ->. apply Hk0. apply list_elem_of_fmap. by exists (k, v).
Qed.

Lemma dict_get_app k d d' :
  dict_get k (d ++ d') = match dict_get k d with Some v => Some v | None => dict_get k d' end.
Proof.
  induction d as [ | [k0 v0] d IH ]; csimpl; [ done | ].
  by destruct (decide (k0 = k)).
Qed.

Lemma dict_set_new k v d : k ∉ dict_keys d → dict_set k v d = d ++ [(k, v)].
Proof.
  unfold dict_keys. induction d as [ | [k0 v0] d IH ]; csimpl; intros Hn; [ done | ].
  apply not_elem_of_cons in Hn as [Hne Hn].
  rewrite decide_False by congruence. by rewrite IH.
Qed.

Lemma foldl_dict_set_keys acc items :
  dict_keys (foldl (λ d kv, dict_set kv.1 kv.2 d) acc items)
  = foldl add_new (dict_keys acc) items.*1.
Proof.
  revert acc. induction items as [ | [k v] items IH ]; intros acc; csimpl; [ done | ].
  by rewrite IH, dict_keys_set.
Qed.

(** The keys of [dict(items)] stand in the order of their first
    occurrence. *)
Lemma dict_of_items_keys items : dict_keys (dict_of_items items) = first_seen items.*1.
Proof. unfold dict_of_items. by rewrite foldl_dict_set_keys, foldl_add_new_nil. Qed.

Lemma dict_of_items_wf items : dict_wf (dict_of_items items).
Proof. unfold dict_wf. rewrite dict_of_items_keys. apply first_seen_NoDup. Qed.

Lemma foldl_dict_set_get k acc items :
  dict_get k (foldl (λ d kv, dict_set kv.1 kv.2 d) acc items)
  = match dict_get k (reverse items) with Some v => Some v | None => dict_get k acc end.
Proof.
  revert acc. induction items as [ | [k' v'] items IH ]; intros acc; csimpl; [ done | ].
  rewrite IH, reverse_cons, dict_get_app, dict_get_set. csimpl.
  destruct (dict_get k (reverse items)); [ done | ].
  by destruct (decide (k' = k)).
Qed.

(** Last write wins: a key of [dict(items)] holds the value of the last
    item with that key. *)
Lemma dict_of_items_get k items :
  dict_get k (dict_of_items items) = dict_get k (reverse items).
Proof.
  unfold dict_of_items. rewrite foldl_dict_set_get. csimpl.
  by destruct (dict_get k (reverse items)).
Qed.

Lemma foldl_dict_set_fresh acc items :
  NoDup (dict_keys acc ++ items.*1) →
  foldl (λ d kv, dict_set kv.1 kv.2 d) acc items = acc ++ items.
Proof.
  revert acc. induction items as [ | [k v] items IH ]; intros acc Hnd; csimpl.
  - by rewrite app_nil_r.
  - csimpl in Hnd. assert (Hk : k ∉ dict_keys acc).
    { apply NoDup_app in Hnd as (_ & Hd & _). intros Hin. apply (Hd k Hin). by left. }
    rewrite dict_set_new by done. rewrite IH.
    + by rewrite <- app_assoc.
    + unfold dict_keys in *. rewrite fmap_app. csimpl. by rewrite <- app_assoc.
Qed.

(** Items with distinct keys are stored as they come. *)
Lemma dict_of_items_NoDup items : NoDup items.*1 → dict_of_items items = items.
Proof. intros Hnd. unfold dict_of_items. by rewrite foldl_dict_set_fresh. Qed.
End DictFacts.

Lemma elem_of_concat {A : Type} (x : A) (ls : list (list A)) :
  x ∈ concat ls ↔ ∃ l, l ∈ ls ∧ x ∈ l.
Proof.
  induction ls as [ | l ls IH ]; simpl.
  - split; [ by intros ?%elem_of_nil | by intros (l & ?%elem_of_nil & _) ].
  - rewrite elem_of_app, IH. split.
    + intros [Hx | (l' & Hl' & Hx)]; [ exists l | exists l' ]; split; try done;
        [ by left | by right ].
    + intros (l' & [-> | Hl']%elem_of_cons & Hx); [ by left | right; eauto ].
Qed.

(** ** The header loop *)

Lemma scan_key_tracks (st : list string * gset string) (key : string) :
  (∀ x, x ∈ st.2 ↔ x ∈ st.1) →
  (scan_key st key).1 = add_new st.1 key
  ∧ (∀ x, x ∈ (scan_key st key).2 ↔ x ∈ (scan_key st key).1).
Proof.
  intros Hst. unfold scan_key, add_new.
  destruct (decide (key ∈ st.2)) as [Hin | Hnin].
  - rewrite decide_True by (by apply Hst). done.
  - rewrite decide_False by (by rewrite <- Hst). split; [ done | ].
    intros x. simpl. rewrite elem_of_union, elem_of_singleton, elem_of_app, list_elem_of_singleton.
    rewrite Hst. tauto.
Qed.

Lemma foldl_scan_key_tracks (ks : list string) (st : list string * gset string) :
  (∀ x, x ∈ st.2 ↔ x ∈ st.1) →
  (foldl scan_key st ks).1 = foldl add_new st.1 ks
  ∧ (∀ x, x ∈ (foldl scan_key st ks).2 ↔ x ∈ (foldl scan_key st ks).1).
Proof.
  revert st. induction ks as [ | k ks IH ]; intros st Hst; simpl; [ done | ].
  destruct (scan_key_tracks st k Hst) as [Hfst Htr].
  destruct (IH _ Htr) as [IH1 IH2]. split; [ by rewrite IH1, Hfst | done ].
Qed.

Lemma foldl_scan_record_tracks (rows : list (list (string * value)))
    (st : list string * gset string) :
  (∀ x, x ∈ st.2 ↔ x ∈ st.1) →
  (foldl scan_record st rows).1 = foldl add_new st.1 (concat (dict_keys <$> rows))
  ∧ (∀ x, x ∈ (foldl scan_record st rows).2 ↔ x ∈ (foldl scan_record st rows).1).
Proof.
  revert st. induction rows as [ | row rows IH ]; intros st Hst; [ done | ].
  csimpl. unfold scan_record at 2 4 5.
  destruct (foldl_scan_key_tracks (dict_keys row) st Hst) as [Hfst Htr].
  destruct (IH _ Htr) as [IH1 IH2]. split; [ | done ].
  by rewrite IH1, Hfst, foldl_app.
Qed.

(** The header is the list of the keys of the rows, each at its first
    occurrence. *)
Lemma all_keys_of_first_seen (rows : list (list (string * value))) :
  all_keys_of rows = first_seen (concat (dict_keys <$> rows)).
Proof.
  unfold all_keys_of.
  destruct (foldl_scan_record_tracks rows ([], ∅)) as [Hfst _].
  - intros x. simpl. rewrite elem_of_nil. set_solver.
  - rewrite Hfst. apply foldl_add_new_nil.
Qed.

Lemma all_keys_of_NoDup (rows : list (list (string * value))) : NoDup (all_keys_of rows).
Proof. rewrite all_keys_of_first_seen. apply first_seen_NoDup. Qed.

Lemma all_keys_of_elem (rows : list (list (string * value))) (k : string) :
  k ∈ all_keys_of rows ↔ ∃ row, row ∈ rows ∧ k ∈ dict_keys row.
Proof.
  rewrite all_keys_of_first_seen, first_seen_elem, elem_of_concat.
  split.
  - intros (ks & Hks & Hk). apply list_elem_of_fmap in Hks as (row & -> & Hrow). eauto.
  - intros (row & Hrow & Hk). exists (dict_keys row). split; [ | done ].
    apply list_elem_of_fmap. eauto.
Qed.

(** ** The dict writer never meets a key outside the header *)

Section DictWriterFacts.
Variable rt : runtime.

Lemma _dict_to_list_ok (fieldnames : list string) (row : list (string * value)) :
  (∀ k, k ∈ dict_keys row → k ∈ fieldnames) →
  _dict_to_list fieldnames row = Return (cells_of fieldnames row).
Proof.
  intros Hsub. unfold _dict_to_list.
  replace (filter (λ k, k ∉ fieldnames) (dict_keys row)) with (@nil string); [ done | ].
  symmetry. induction (dict_keys row) as [ | k ks IH ]; [ done | ].
  rewrite filter_cons, decide_False.
  - apply IH. intros k' Hk'. apply Hsub. by right.
  - intros Hn. apply Hn, Hsub. by left.
Qed.

Lemma dict_get_zip_self (l : list string) (k : string) :
  k ∈ l → dict_get k (zip l (PyStr <$> l)) = Some (PyStr k).
Proof.
  induction l as [ | k0 l IH ]; csimpl; intros Hin.
  - by apply elem_of_nil in Hin.
  - destruct (decide (k0 = k)) as [-> | Hne]; [ done | ].
    apply IH. by apply elem_of_cons in Hin as [-> | Hin].
Qed.

Lemma writeheader_ok (fieldnames : list string) :
  NoDup fieldnames →
  writeheader rt fieldnames = Return (csv_writerow rt (PyStr <$> fieldnames)).
Proof.
  intros Hnd. unfold writeheader, writerow.
  assert (Hzip : (zip fieldnames (PyStr <$> fieldnames)).*1 = fieldnames).
  { apply fst_zip. by rewrite length_fmap. }
  rewrite dict_of_items_NoDup by (by rewrite Hzip).
  rewrite _dict_to_list_ok by (unfold dict_keys; by rewrite Hzip).
  csimpl. do 2 f_equal. unfold cells_of.
  apply list_fmap_ext. intros i k Hk.
  rewrite dict_get_zip_self; [ done | ]. by eapply list_elem_of_lookup_2.
Qed.

Lemma writerows_ok (fieldnames : list string) (rows : list (list (string * value))) :
  (∀ row k, row ∈ rows → k ∈ dict_keys row → k ∈ fieldnames) →
  writerows rt fieldnames rows
  = Return (str_concat ((λ row, csv_writerow rt (cells_of fieldnames row)) <$> rows)).
Proof.
  induction rows as [ | row rows IH ]; intros Hsub; [ done | ].
  cbn [writerows]. unfold writerow at 1.
  rewrite _dict_to_list_ok by (intros k; apply Hsub; by left).
  rewrite IH by (intros row' k Hrow'; apply Hsub; by right). done.
Qed.

(** What the conversion returns for parsed data: nothing without a
    record, else the header and one record for each row. *)
Lemma convert_ok (data : value) :
  convert rt data
  = Return (match flat_rows rt data with
            | [] => ""
            | rows =>
                csv_writerow rt (PyStr <$> header_of rt data)
                +:+ str_concat ((λ row, csv_writerow rt (cells_of (header_of rt data) row)) <$> rows)
            end).
Proof.
  unfold convert, header_of, flat_rows.
  destruct (flatten_record rt <$> records_of data) as [ | row rows ] eqn:Hrows; [ done | ].
  rewrite writeheader_ok by apply all_keys_of_NoDup.
  rewrite writerows_ok; [ done | ].
  intros row' k Hrow' Hk. apply all_keys_of_elem. eauto.
Qed.
End DictWriterFacts.

(** ** Texts *)

Lemma str_app_nil_l (b : string) : "" +:+ b = b.
Proof. reflexivity. Qed.

Lemma str_app_cons (x : ascii) (a b : string) : String x a +:+ b = String x (a +:+ b).
Proof. reflexivity. Qed.

Ltac str_simpl := repeat (rewrite str_app_nil_l || rewrite str_app_cons).

Lemma str_app_assoc (a b c : string) : (a +:+ b) +:+ c = a +:+ b +:+ c.
Proof. induction a as [ | x a IH ]; str_simpl; [ done | by rewrite IH ]. Qed.

Lemma str_app_nil_r (a : string) : a +:+ "" = a.
Proof. induction a as [ | x a IH ]; str_simpl; [ done | by rewrite IH ]. Qed.

Lemma str_app_eq_nil (a b : string) : a +:+ b = "" → a = "" ∧ b = "".
Proof. destruct a; str_simpl; [ done | discriminate ]. Qed.

Lemma str_length_0 (a : string) : String.length a = 0 ↔ a = "".
Proof. destruct a; simpl; split; (done || discriminate). Qed.

Lemma str_concat_app (l1 l2 : list string) :
  str_concat (l1 ++ l2) = str_concat l1 +:+ str_concat l2.
Proof.
  induction l1 as [ | a l1 IH ]; simpl; [ done | by rewrite IH, str_app_assoc ].
Qed.

Lemma text_of_lines_concat (ls : list string) :
  text_of_lines ls = str_concat ((λ l, l +:+ lineterminator) <$> ls).
Proof.
  induction ls as [ | l ls IH ]; csimpl; [ done | by rewrite IH, str_app_assoc ].
Qed.
(** ** The writer *)

Section WriterFacts.
Variable rt : runtime.

Lemma csv_special_quotechar : csv_special rt quotechar = true.
Proof. done. Qed.

Lemma csv_special_delimiter : csv_special rt delimiter = true.
Proof. done. Qed.

Lemma csv_special_LF : csv_special rt LF = true.
Proof. done. Qed.

Lemma csv_copy_unquoted (s : string) : csv_quoted rt s = false → csv_copy s = s.
Proof.
  induction s as [ | c s IH ]; simpl; [ done | ].
  intros [Hc Hs]%orb_false_iff. rewrite IH by done.
  rewrite bool_decide_eq_false_2; [ done | ].
  intros ->. by rewrite csv_special_quotechar in Hc.
Qed.

Lemma append_field_cell (w : writer) (v : value) :
  append_field rt w v = join_append rt w (Some (cell_text rt v)) false.
Proof. by destruct v. Qed.

Lemma join_append_render (w : writer) (s : string) :
  join_append rt w (Some s) false
  = {| rec := rec w +:+ (if bool_decide (0 < num_fields w) then String delimiter "" else "")
              +:+ render_field rt s;
       num_fields := S (num_fields w) |}.
Proof.
  unfold join_append, render_field. simpl.
  destruct (csv_quoted rt s) eqn:Hq; [ done | ]. by rewrite csv_copy_unquoted.
Qed.

(** The fields appended after the first one: each comes behind a
    delimiter. *)
Lemma foldl_append_field_next (vs : list value) (w : writer) :
  0 < num_fields w →
  foldl (append_field rt) w vs
  = {| rec := rec w +:+ str_concat ((λ v, String delimiter (render_field rt (cell_text rt v))) <$> vs);
       num_fields := num_fields w + length vs |}.
Proof.
  revert w. induction vs as [ | v vs IH ]; intros w Hw; csimpl.
  - rewrite str_app_nil_r, Nat.add_0_r. by destruct w.
  - rewrite IH by (rewrite append_field_cell, join_append_render; simpl; lia).
    rewrite append_field_cell, join_append_render. simpl.
    rewrite bool_decide_eq_true_2 by done.
    rewrite !str_app_assoc. str_simpl. f_equal. lia.
Qed.

Lemma join_delimiter (r : string) (rs : list string) :
  join (String delimiter "") (r :: rs)
  = r +:+ str_concat ((λ s, String delimiter s) <$> rs).
Proof.
  revert r. induction rs as [ | r' rs IH ]; intros r.
  - simpl. by rewrite str_app_nil_r.
  - change (join (String delimiter "") (r :: r' :: rs))
      with (r +:+ String delimiter "" +:+ join (String delimiter "") (r' :: rs)).
    rewrite IH. csimpl. done.
Qed.

Lemma foldl_append_field (vs : list value) :
  foldl (append_field rt) {| rec := ""; num_fields := 0 |} vs
  = {| rec := join (String delimiter "") (render_field rt <$> (cell_text rt <$> vs));
       num_fields := length vs |}.
Proof.
  destruct vs as [ | v vs ]; [ done | ].
  cbn [foldl]. rewrite foldl_append_field_next
    by (rewrite append_field_cell, join_append_render; simpl; lia).
  rewrite append_field_cell, join_append_render, !fmap_cons, join_delimiter.
  cbn [rec num_fields length]. rewrite bool_decide_eq_false_2 by lia. str_simpl.
  rewrite <- !list_fmap_compose. done.
Qed.

Lemma join_two_not_nil (r r' : string) (rs : list string) :
  join (String delimiter "") (r :: r' :: rs) ≠ "".
Proof.
  change (join (String delimiter "") (r :: r' :: rs))
    with (r +:+ String delimiter "" +:+ join (String delimiter "") (r' :: rs)).
  intros [_ H]%str_app_eq_nil. discriminate.
Qed.

(** What [writerow] writes: the fields joined by the delimiter, a pair
    of quotes for a record of one empty field, and the line
    terminator. *)
Lemma csv_writerow_text (vs : list value) :
  csv_writerow rt vs = row_text rt (cell_text rt <$> vs) +:+ lineterminator.
Proof.
  unfold csv_writerow. rewrite foldl_append_field. cbn [rec num_fields].
  destruct vs as [ | v vs ]; [ done | ].
  unfold row_text. rewrite !fmap_cons. cbn [length].
  set (body := join (String delimiter "") _).
  rewrite (bool_decide_eq_true_2 (0 < _)) by lia. rewrite andb_true_l.
  destruct (decide (body = "")) as [Hb | Hb].
  - rewrite (bool_decide_eq_true_2 (String.length body = 0)) by (by apply str_length_0).
    rewrite (bool_decide_eq_true_2 (body = "")) by done.
    destruct vs as [ | v' vs ]; [ | by destruct (join_two_not_nil _ _ _ Hb) ].
    unfold join_append. cbn [rec num_fields length]. by rewrite Hb.
  - rewrite (bool_decide_eq_false_2 (String.length body = 0)) by (by rewrite str_length_0).
    rewrite (bool_decide_eq_false_2 (body = "")) by done. done.
Qed.
End WriterFacts.

(** ** The reader *)

Lemma result_bind_assoc {A B C : Type} (m : result A) (f : A → result B) (g : B → result C) :
  (m ≫= f) ≫= g = m ≫= (λ a, f a ≫= g).
Proof. by destruct m. Qed.

Lemma result_bind_return {A B : Type} (a : A) (f : A → result B) : Return a ≫= f = f a.
Proof. reflexivity. Qed.

Lemma result_bind_raise {A B : Type} (e : exn) (f : A → result B) : Raise e ≫= f = Raise e.
Proof. reflexivity. Qed.

Ltac bind_simpl := rewrite ?result_bind_return, ?result_bind_raise.

Lemma parse_chars_app (a b : string) (r : reader) :
  parse_chars r (a +:+ b) = r' ← parse_chars r a; parse_chars r' b.
Proof.
  revert r. induction a as [ | c a IH ]; intros r; str_simpl; [ done | ].
  cbn [parse_chars]. rewrite result_bind_assoc.
  destruct (parse_process_char r (Some c)) as [ r' | e ]; bind_simpl; [ apply IH | done ].
Qed.

(** Reading line by line is reading the text in one pass. *)
Lemma read_records_scan (text cur : string) (r0 : reader) :
  read_records r0 (lines_from cur text)
  = r ← parse_chars r0 cur; scan_text r (bool_decide (cur ≠ "")) text.
Proof.
  revert cur r0. induction text as [ | c text IH ]; intros cur r0.
  - cbn [lines_from scan_text]. case_bool_decide as Hcur.
    + subst cur. done.
    + rewrite bool_decide_eq_true_2 by done. cbn [read_records]. unfold parse_line.
      rewrite result_bind_assoc.
      destruct (parse_chars r0 cur) as [ r | e ]; bind_simpl; [ | done ].
      destruct (parse_process_char r None) as [ r' | e ]; bind_simpl; [ | done ].
      by case_bool_decide.
  - cbn [lines_from]. case_bool_decide as Hc.
    + subst c. cbn [read_records]. unfold parse_line.
      rewrite parse_chars_app, !result_bind_assoc.
      destruct (parse_chars r0 cur) as [ r | e ]; bind_simpl; [ | done ].
      cbn [parse_chars scan_text]. rewrite result_bind_assoc.
      destruct (parse_process_char r (Some LF)) as [ r1 | e ]; bind_simpl; [ | done ].
      rewrite (bool_decide_eq_true_2 (LF = LF)) by done.
      destruct (parse_process_char r1 None) as [ r2 | e ]; bind_simpl; [ | done ].
      rewrite !IH. cbn [parse_chars]. bind_simpl.
      by rewrite (bool_decide_eq_false_2 (EmptyString ≠ EmptyString)) by (by intros []).
    + rewrite IH, parse_chars_app, result_bind_assoc.
      destruct (parse_chars r0 cur) as [ r | e ]; bind_simpl; [ | done ].
      cbn [parse_chars scan_text]. rewrite result_bind_assoc.
      destruct (parse_process_char r (Some c)) as [ r1 | e ]; bind_simpl; [ | done ].
      rewrite (bool_decide_eq_false_2 (c = LF)) by done.
      rewrite bool_decide_eq_true_2; [ done | ]. by destruct cur.
Qed.

Lemma csv_read_scan (text : string) : csv_read text = scan_text parse_reset false text.
Proof. unfold csv_read. by rewrite read_records_scan. Qed.

(** *** Single steps of the parser *)

Ltac ppc_solve :=
  unfold parse_process_char, start_field, is_newline, after_newline, set_state,
    parse_save_field, parse_add_char; cbn [state field fields];
  repeat case_bool_decide; simplify_eq; cbn [orb andb];
  try done.

Section ReaderSteps.
Implicit Types (f : string) (fs : list string) (c : ascii).

Lemma LF_not_CR : LF ≠ CR. Proof. done. Qed.
Lemma LF_not_delimiter : LF ≠ delimiter. Proof. done. Qed.
Lemma LF_not_quotechar : LF ≠ quotechar. Proof. done. Qed.
Lemma CR_not_delimiter : CR ≠ delimiter. Proof. done. Qed.
Lemma CR_not_quotechar : CR ≠ quotechar. Proof. done. Qed.
Lemma delimiter_not_quotechar : delimiter ≠ quotechar. Proof. done. Qed.

Lemma step_plain_in_field f fs c :
  c ≠ LF → c ≠ CR → c ≠ delimiter →
  parse_process_char {| state := IN_FIELD; field := f; fields := fs |} (Some c)
  = Return {| state := IN_FIELD; field := f +:+ String c ""; fields := fs |}.
Proof. intros. ppc_solve. Qed.

Lemma step_plain_start st f fs c :
  st = START_RECORD ∨ st = START_FIELD →
  c ≠ LF → c ≠ CR → c ≠ delimiter → c ≠ quotechar →
  parse_process_char {| state := st; field := f; fields := fs |} (Some c)
  = Return {| state := IN_FIELD; field := f +:+ String c ""; fields := fs |}.
Proof. intros [-> | ->] ????; ppc_solve. Qed.

Lemma step_quote_start st f fs :
  st = START_RECORD ∨ st = START_FIELD →
  parse_process_char {| state := st; field := f; fields := fs |} (Some quotechar)
  = Return {| state := IN_QUOTED_FIELD; field := f; fields := fs |}.
Proof. intros [-> | ->]; ppc_solve. Qed.

Lemma step_delimiter st f fs :
  st ≠ IN_QUOTED_FIELD → st ≠ EAT_CRNL →
  parse_process_char {| state := st; field := f; fields := fs |} (Some delimiter)
  = Return {| state := START_FIELD; field := ""; fields := fs ++ [f] |}.
Proof. intros. destruct st; ppc_solve. Qed.

Lemma step_LF st f fs :
  st = START_FIELD ∨ st = IN_FIELD ∨ st = QUOTE_IN_QUOTED_FIELD →
  parse_process_char {| state := st; field := f; fields := fs |} (Some LF)
  = Return {| state := EAT_CRNL; field := ""; fields := fs ++ [f] |}.
Proof. intros [-> | [-> | ->]]; ppc_solve. Qed.

Lemma step_LF_start f fs :
  parse_process_char {| state := START_RECORD; field := f; fields := fs |} (Some LF)
  = Return {| state := EAT_CRNL; field := f; fields := fs |}.
Proof. ppc_solve. Qed.

Lemma step_end_of_line f fs :
  parse_process_char {| state := EAT_CRNL; field := f; fields := fs |} None
  = Return {| state := START_RECORD; field := f; fields := fs |}.
Proof. ppc_solve. Qed.

Lemma step_char_quoted f fs c :
  c ≠ quotechar →
  parse_process_char {| state := IN_QUOTED_FIELD; field := f; fields := fs |} (Some c)
  = Return {| state := IN_QUOTED_FIELD; field := f +:+ String c ""; fields := fs |}.
Proof. intros. ppc_solve. Qed.

Lemma step_end_of_line_quoted f fs :
  parse_process_char {| state := IN_QUOTED_FIELD; field := f; fields := fs |} None
  = Return {| state := IN_QUOTED_FIELD; field := f; fields := fs |}.
Proof. ppc_solve. Qed.

Lemma step_quote_quoted f fs :
  parse_process_char {| state := IN_QUOTED_FIELD; field := f; fields := fs |} (Some quotechar)
  = Return {| state := QUOTE_IN_QUOTED_FIELD; field := f; fields := fs |}.
Proof. ppc_solve. Qed.

Lemma step_quote_doubled f fs :
  parse_process_char {| state := QUOTE_IN_QUOTED_FIELD; field := f; fields := fs |}
    (Some quotechar)
  = Return {| state := IN_QUOTED_FIELD; field := f +:+ String quotechar ""; fields := fs |}.
Proof. ppc_solve. Qed.

(** One character of the text, not a line feed. *)
Lemma scan_text_step r r' b c t :
  c ≠ LF → parse_process_char r (Some c) = Return r' →
  scan_text r b (String c t) = scan_text r' true t.
Proof.
  intros Hc Hstep. cbn [scan_text]. rewrite Hstep. bind_simpl.
  by rewrite bool_decide_eq_false_2.
Qed.

(** A line feed inside quotes. *)
Lemma scan_text_step_LF_quoted f fs b t :
  scan_text {| state := IN_QUOTED_FIELD; field := f; fields := fs |} b (String LF t)
  = scan_text {| state := IN_QUOTED_FIELD; field := f +:+ String LF ""; fields := fs |} false t.
Proof.
  cbn [scan_text]. rewrite step_char_quoted by apply LF_not_quotechar. bind_simpl.
  rewrite bool_decide_eq_true_2 by done. rewrite step_end_of_line_quoted. bind_simpl.
  by rewrite bool_decide_eq_false_2.
Qed.

(** A line feed that ends a record. *)
Lemma scan_text_step_LF_end r fs b t :
  parse_process_char r (Some LF) = Return {| state := EAT_CRNL; field := ""; fields := fs |} →
  scan_text r b (String LF t)
  = records ← scan_text parse_reset false t; mret (fs :: records).
Proof.
  intros Hstep. cbn [scan_text]. rewrite Hstep. bind_simpl.
  rewrite bool_decide_eq_true_2 by done. rewrite step_end_of_line. bind_simpl.
  by rewrite bool_decide_eq_true_2.
Qed.
End ReaderSteps.

(** *** Fields, records and documents as the writer lays them out *)

Section ReadBack.
Variable rt : runtime.
Implicit Types (s f t : string) (fs cells : list string) (c : ascii).

Lemma csv_special_false c :
  csv_special rt c = false → c ≠ delimiter ∧ c ≠ quotechar ∧ c ≠ LF.
Proof.
  unfold csv_special. intros H.
  apply orb_false_iff in H as [H _]. apply orb_false_iff in H as [H Hlt].
  apply orb_false_iff in H as [Hd Hq].
  apply bool_decide_eq_false in Hd. apply bool_decide_eq_false in Hq.
  cbn [str_contains lineterminator] in Hlt.
  apply orb_false_iff in Hlt as [Hlt _]. apply bool_decide_eq_false in Hlt.
  repeat split; congruence.
Qed.

(** The data of a quoted field, up to the closing quote. *)
Lemma scan_quoted_body s f fs b t :
  scan_text {| state := IN_QUOTED_FIELD; field := f; fields := fs |} b
    (csv_copy s +:+ String quotechar t)
  = scan_text {| state := QUOTE_IN_QUOTED_FIELD; field := f +:+ s; fields := fs |} true t.
Proof.
  revert f b. induction s as [ | c s IH ]; intros f b; cbn [csv_copy]; str_simpl.
  - rewrite (scan_text_step _ _ _ _ _ (not_eq_sym LF_not_quotechar) (step_quote_quoted _ _)).
    by rewrite str_app_nil_r.
  - replace (f +:+ String c s) with ((f +:+ String c "") +:+ s)
      by (by rewrite str_app_assoc).
    case_bool_decide as Hc; str_simpl.
    + subst c.
      rewrite (scan_text_step _ _ _ _ _ (not_eq_sym LF_not_quotechar) (step_quote_quoted _ _)).
      rewrite (scan_text_step _ _ _ _ _ (not_eq_sym LF_not_quotechar) (step_quote_doubled _ _)).
      apply IH.
    + destruct (decide (c = LF)) as [-> | Hlf].
      * rewrite scan_text_step_LF_quoted. apply IH.
      * rewrite (scan_text_step _ _ _ _ _ Hlf (step_char_quoted _ _ _ Hc)). apply IH.
Qed.

(** The data of an unquoted field, after its first character. *)
Lemma scan_plain_body s f fs b c t :
  csv_quoted rt s = false → str_contains CR s = false →
  scan_text {| state := IN_FIELD; field := f; fields := fs |} b (s +:+ String c t)
  = scan_text {| state := IN_FIELD; field := f +:+ s; fields := fs |} b (String c t).
Proof.
  revert f b. induction s as [ | x s IH ]; intros f b Hq Hcr; str_simpl.
  - by rewrite str_app_nil_r.
  - cbn [csv_quoted str_contains] in Hq, Hcr.
    apply orb_false_iff in Hq as [Hx Hq]. apply orb_false_iff in Hcr as [Hxcr Hcr].
    apply csv_special_false in Hx as (Hd & Hqc & Hlf).
    apply bool_decide_eq_false in Hxcr.
    rewrite (scan_text_step _ _ _ _ _ Hlf (step_plain_in_field _ _ _ Hlf Hxcr Hd)).
    rewrite IH by done. by rewrite str_app_assoc.
Qed.

Lemma render_field_nil s : render_field rt s = "" → s = "".
Proof.
  unfold render_field. destruct (csv_quoted rt s); [ discriminate | done ].
Qed.

(** A field from the start of a field up to the character [c] that
    follows it: the parser holds the field, and a delimiter or a line
    feed saves it. *)
Lemma scan_field s st fs b c t :
  st = START_RECORD ∨ st = START_FIELD →
  reads_back rt s →
  ∃ r b',
    scan_text {| state := st; field := ""; fields := fs |} b
      (render_field rt s +:+ String c t)
    = scan_text r b' (String c t)
    ∧ parse_process_char r (Some delimiter)
      = Return {| state := START_FIELD; field := ""; fields := fs ++ [s] |}
    ∧ (st = START_FIELD ∨ render_field rt s ≠ "" →
       parse_process_char r (Some LF)
       = Return {| state := EAT_CRNL; field := ""; fields := fs ++ [s] |}).
Proof.
  intros Hst Hrb. unfold render_field.
  destruct (csv_quoted rt s) eqn:Hq.
  - exists {| state := QUOTE_IN_QUOTED_FIELD; field := s; fields := fs |}, true.
    split; [ | split ].
    + unfold in_quotes. str_simpl.
      rewrite (scan_text_step _ _ _ _ _ (not_eq_sym LF_not_quotechar)
                 (step_quote_start _ _ _ Hst)).
      rewrite str_app_assoc. str_simpl. by rewrite scan_quoted_body.
    + by apply step_delimiter.
    + intros _. apply step_LF. auto.
  - destruct Hrb as [Hrb | Hcr]; [ congruence | ].
    destruct s as [ | x s ].
    + exists {| state := st; field := ""; fields := fs |}, b. split; [ done | split ].
      * apply step_delimiter; destruct Hst; by subst.
      * intros [-> | Hne]; [ apply step_LF; auto | done ].
    + exists {| state := IN_FIELD; field := String x s; fields := fs |}, true.
      cbn [csv_quoted str_contains] in Hq, Hcr.
      apply orb_false_iff in Hq as [Hx Hq]. apply orb_false_iff in Hcr as [Hxcr Hcr].
      apply csv_special_false in Hx as (Hd & Hqc & Hlf).
      apply bool_decide_eq_false in Hxcr.
      split; [ | split ].
      * str_simpl.
        rewrite (scan_text_step _ _ _ _ _ Hlf (step_plain_start _ _ _ _ Hst Hlf Hxcr Hd Hqc)).
        by rewrite scan_plain_body.
      * by apply step_delimiter.
      * intros _. apply step_LF. auto.
Qed.

(** A record from the start of one of its fields to the end of its
    line. *)
Lemma scan_row_from cells s st fs b t :
  st = START_RECORD ∨ st = START_FIELD →
  Forall (reads_back rt) (s :: cells) →
  (st = START_RECORD → cells ≠ [] ∨ render_field rt s ≠ "") →
  scan_text {| state := st; field := ""; fields := fs |} b
    (join (String delimiter "") (render_field rt <$> s :: cells) +:+ String LF t)
  = records ← scan_text parse_reset false t; mret ((fs ++ s :: cells) :: records).
Proof.
  revert s st fs b. induction cells as [ | s' cells IH ]; intros s st fs b Hst Hall Hne.
  - apply Forall_cons in Hall as [Hs _].
    destruct (scan_field s st fs b LF t Hst Hs) as (r & b' & Hscan & _ & Hlf).
    cbn [fmap list_fmap join]. rewrite Hscan.
    apply scan_text_step_LF_end, Hlf.
    destruct Hst as [-> | ->]; [ | by left ].
    destruct (Hne eq_refl) as [? | ?]; [ done | by right ].
  - apply Forall_cons in Hall as [Hs Hall].
    rewrite fmap_cons.
    change (join (String delimiter "") (render_field rt s :: (render_field rt <$> s' :: cells)))
      with (render_field rt s +:+ String delimiter ""
            +:+ join (String delimiter "") (render_field rt <$> s' :: cells)).
    rewrite !str_app_assoc. str_simpl.
    destruct (scan_field s st fs b delimiter
                (join (String delimiter "") (render_field rt <$> s' :: cells) +:+ String LF t)
                Hst Hs) as (r & b' & Hscan & Hd & _).
    rewrite Hscan, (scan_text_step _ _ _ _ _ (not_eq_sym LF_not_delimiter) Hd).
    rewrite IH; [ by rewrite <- app_assoc | by right | done | by intros [=] ].
Qed.

(** A record as the writer writes it, at the start of a line. *)
Lemma scan_row cells t :
  Forall (reads_back rt) cells →
  scan_text parse_reset false (row_text rt cells +:+ lineterminator +:+ t)
  = records ← scan_text parse_reset false t; mret (cells :: records).
Proof.
  intros Hall. unfold lineterminator. str_simpl. destruct cells as [ | s cells ].
  - cbn [row_text]. str_simpl. by apply scan_text_step_LF_end.
  - unfold row_text. case_bool_decide as Hbody.
    + destruct cells as [ | s' cells ]; [ | by destruct (join_two_not_nil _ _ _ Hbody) ].
      apply render_field_nil in Hbody. subst s. done.
    + unfold parse_reset. rewrite scan_row_from; [ done | auto | done | ].
      intros _. destruct cells; [ right | by left ]. exact Hbody.
Qed.

(** A document: what the writer wrote is read back record by record. *)
Lemma scan_document (rows : list (list string)) :
  Forall (Forall (reads_back rt)) rows →
  scan_text parse_reset false
    (str_concat ((λ cells, row_text rt cells +:+ lineterminator) <$> rows))
  = Return rows.
Proof.
  induction 1 as [ | cells rows Hcells _ IH ]; [ done | ].
  rewrite fmap_cons. cbn [str_concat foldr]. fold (str_concat).
  rewrite str_app_assoc, scan_row by done.
  unfold str_concat in IH. by rewrite IH.
Qed.

Lemma csv_read_rows (rows : list (list value)) :
  Forall (Forall (λ v, reads_back rt (cell_text rt v))) rows →
  csv_read (str_concat (csv_writerow rt <$> rows))
  = Return ((λ vs : list value, cell_text rt <$> vs) <$> rows).
Proof.
  intros Hall. rewrite csv_read_scan, <- scan_document.
  - f_equal. rewrite <- list_fmap_compose. f_equal. apply list_fmap_ext.
    intros i vs _. simpl. apply csv_writerow_text.
  - apply Forall_fmap. eapply Forall_impl; [ exact Hall | ].
    intros vs Hvs. by apply Forall_fmap.
Qed.
End ReadBack.

(** ** The flattener *)

Section FlattenFacts.
Variable rt : runtime.
Implicit Types (d : list (string * value)) (v : value) (k sep : string).

Lemma flatten_value_dict d new_key sep :
  flatten_value rt (PyDict d) new_key sep = _flatten_dict rt d new_key sep.
Proof.
  unfold _flatten_dict. cbn [flatten_value]. f_equal.
  induction d as [ | [k v] d IH ]; [ done | ]. cbn [flatten_loop]. by rewrite IH.
Qed.

Lemma leaves_value_dict d new_key sep :
  leaves_value rt (PyDict d) new_key sep = leaves rt d new_key sep.
Proof.
  cbn [leaves_value].
  induction d as [ | [k v] d IH ]; [ done | ]. cbn [leaves]. by rewrite IH.
Qed.

Lemma flatten_value_leaf v new_key sep :
  is_dict v = false → flatten_value rt v new_key sep = [(new_key, leaf_value rt v)].
Proof. by destruct v. Qed.

Lemma leaves_value_leaf v new_key sep :
  is_dict v = false → leaves_value rt v new_key sep = [(new_key, leaf_value rt v)].
Proof. by destruct v. Qed.

(** Without two leaves under one joined key, the flat row is the list
    of the leaves. *)
Lemma flatten_value_leaves v new_key sep :
  NoDup (leaves_value rt v new_key sep).*1 →
  flatten_value rt v new_key sep = leaves_value rt v new_key sep.
Proof.
  revert new_key. induction v as [ | | | | | | d IH ] using value_ind; intros new_key Hnd; try done.
  rewrite flatten_value_dict. rewrite leaves_value_dict in *. unfold _flatten_dict.
  assert (Hloop : flatten_loop rt d new_key sep = leaves rt d new_key sep).
  { clear -IH Hnd. induction d as [ | [k v] d IHd ]; [ done | ].
    cbn [flatten_loop leaves] in *.
    rewrite fmap_app in Hnd. apply NoDup_app in Hnd as (Hv & _ & Hd).
    apply Forall_cons in IH as [IHv IH].
    rewrite IHv by done. by rewrite IHd. }
  rewrite Hloop. by apply dict_of_items_NoDup.
Qed.

Lemma _flatten_dict_leaves d parent_key sep :
  NoDup (leaves rt d parent_key sep).*1 →
  _flatten_dict rt d parent_key sep = leaves rt d parent_key sep.
Proof.
  intros Hnd. rewrite <- flatten_value_dict, <- leaves_value_dict.
  apply flatten_value_leaves. by rewrite leaves_value_dict.
Qed.

Lemma leaves_elem d parent_key sep k v kv :
  (k, v) ∈ d → kv ∈ leaves_value rt v (new_key_of parent_key sep k) sep →
  kv ∈ leaves rt d parent_key sep.
Proof.
  induction d as [ | [k' v'] d IH ]; intros Hin Hkv; [ by apply elem_of_nil in Hin | ].
  cbn [leaves]. apply elem_of_app.
  apply elem_of_cons in Hin as [[= <- <-] | Hin]; [ by left | right; by apply IH ].
Qed.

(** A value met along a path that is not a dict is a leaf under the
    joined key of the path. *)
Lemma at_path_leaf d path v parent_key sep :
  at_path d path v → is_dict v = false →
  (path_key parent_key sep path, leaf_value rt v) ∈ leaves rt d parent_key sep.
Proof.
  intros Hpath Hv. revert parent_key.
  induction Hpath as [ d k v Hin | d k d' path v Hin _ IH ]; intros parent_key.
  - eapply leaves_elem; [ exact Hin | ].
    rewrite leaves_value_leaf by done. cbn. by left.
  - eapply leaves_elem; [ exact Hin | ].
    rewrite leaves_value_dict. cbn [path_key foldl]. by apply IH.
Qed.

Lemma at_path_flat d path v parent_key sep :
  NoDup (leaves rt d parent_key sep).*1 →
  at_path d path v → is_dict v = false →
  dict_get (path_key parent_key sep path) (_flatten_dict rt d parent_key sep)
  = Some (leaf_value rt v).
Proof.
  intros Hnd Hpath Hv. rewrite _flatten_dict_leaves by done.
  apply dict_get_NoDup; [ done | by apply at_path_leaf ].
Qed.
End FlattenFacts.

(** ** The conversion *)

Lemma json_to_csv_parsed (rt : runtime) (json_input : value) :
  json_to_csv rt json_input
  = match parsed rt json_input with
    | Some data => convert rt data
    | None => Return ""
    end.
Proof. by destruct json_input. Qed.

Lemma csv_writerow_not_nil (rt : runtime) (vs : list value) (t : string) :
  csv_writerow rt vs +:+ t ≠ "".
Proof.
  rewrite csv_writerow_text, str_app_assoc.
  intros [_ H]%str_app_eq_nil. discriminate.
Qed.

Lemma convert_nil_iff (rt : runtime) (data : value) :
  convert rt data = Return "" ↔ records_of data = [].
Proof.
  rewrite convert_ok. unfold flat_rows. destruct (records_of data) as [ | r rs ]; [ done | ].
  rewrite fmap_cons. split; [ | done ].
  intros [= H]. by apply csv_writerow_not_nil in H.
Qed.

Lemma convert_records (rt : runtime) (data : value) :
  records_of data ≠ [] →
  convert rt data
  = Return (str_concat (csv_writerow rt <$> ((PyStr <$> header_of rt data)
                                             :: (cells_of (header_of rt data) <$> flat_rows rt data)))).
Proof.
  intros Hne. rewrite convert_ok. rewrite fmap_cons, <- list_fmap_compose.
  unfold flat_rows. destruct (records_of data) as [ | r rs ] eqn:Hr; [ done | ].
  rewrite !fmap_cons. done.
Qed.

(** The document the conversion returns reads back as the header
    followed by the cells of each row. *)
Lemma convert_reads_back (rt : runtime) (data : value) :
  records_of data ≠ [] →
  Forall (reads_back rt) (header_of rt data) →
  Forall (λ row, Forall (λ v, reads_back rt (cell_text rt v)) (cells_of (header_of rt data) row))
    (flat_rows rt data) →
  ∃ text, convert rt data = Return text
    ∧ csv_read text
      = Return (header_of rt data
                :: ((λ row, cell_text rt <$> cells_of (header_of rt data) row)
                    <$> flat_rows rt data)).
Proof.
  intros Hne Hhead Hrows. eexists. split; [ by apply convert_records | ].
  rewrite csv_read_rows.
  - rewrite fmap_cons, <- !list_fmap_compose. do 2 f_equal.
    apply list_fmap_id.
  - constructor.
    + by apply Forall_fmap.
    + by apply Forall_fmap.
Qed.

Lemma first_seen_constant (x : string) (l : list string) :
  (∀ y, y ∈ l → y = x) → first_seen (x :: l) = [x].
Proof.
  intros Hall. cbn [first_seen]. f_equal.
  assert (Hsub : ∀ y, y ∈ first_seen l → y = x)
    by (intros y Hy; by apply Hall, first_seen_elem).
  induction (first_seen l) as [ | y l' IH ]; [ done | ].
  rewrite filter_cons, decide_False.
  - apply IH. intros z Hz. apply Hsub. by right.
  - intros Hne. apply Hne, Hsub. by left.
Qed.

Lemma flat_rows_scalars (rt : runtime) (records : list value) :
  Forall (λ r, is_dict r = false) records →
  flat_rows rt (PyList records) = (λ r, [("value", PyStr (py_str rt r))]) <$> records.
Proof.
  intros Hall. unfold flat_rows. cbn [records_of].
  induction Hall as [ | r rs Hr _ IH ]; [ done | ].
  rewrite !fmap_cons, IH. f_equal. by destruct r.
Qed.

Lemma csv_quoted_contains (rt : runtime) (x : ascii) (s : string) :
  csv_special rt x = true → str_contains x s = true → csv_quoted rt s = true.
Proof.
  intros Hx. induction s as [ | c s IH ]; cbn [str_contains csv_quoted]; [ done | ].
  intros [Hc | Hs]%orb_true_iff.
  - apply bool_decide_eq_true in Hc. subst c. by rewrite Hx.
  - rewrite IH by done. apply orb_true_r.
Qed.

(** * The claims *)

(** C1, as amended.  The conversion returns the empty text for the empty
    list, for a string that does not parse, and whenever the list of
    records is empty; [None] is a record of its own, replaced by the dict
    with the key [value] and the text [None], and gives a header and a
    row. *)
Theorem empty_output (rt : runtime) :
  json_to_csv rt (PyList []) = Return ""
  ∧ (∀ s, json_loads rt s = None → json_to_csv rt (PyStr s) = Return "")
  ∧ (∀ json_input data,
       parsed rt json_input = Some data → records_of data = [] →
       json_to_csv rt json_input = Return "")
  ∧ (∀ json_input,
       parsed rt json_input = Some PyNone →
       json_to_csv rt json_input = Return (text_of_lines ["value"; "None"])).
Proof.
  split; [ | split; [ | split ] ].
  - rewrite json_to_csv_parsed. cbn [parsed]. by apply convert_nil_iff.
  - intros s Hs. cbn [json_to_csv]. by rewrite Hs.
  - intros json_input data Hp Hr. rewrite json_to_csv_parsed, Hp. by apply convert_nil_iff.
  - intros json_input Hp. rewrite json_to_csv_parsed, Hp.
    destruct rt as [fr jl []]; by vm_compute.
Qed.

Lemma empty_output_witness :
  json_to_csv sample_runtime (PyStr "not json") = Return ""
  ∧ json_to_csv sample_runtime (PyStr "[]") = Return ""
  ∧ json_to_csv sample_runtime (PyDict [("results", PyList [])]) = Return ""
  ∧ json_to_csv sample_runtime (PyStr "null") = Return (text_of_lines ["value"; "None"]).
Proof.
  destruct (empty_output sample_runtime) as (_ & H2 & H3 & H4).
  split; [ | split; [ | split ] ].
  - apply (H2 "not json"). reflexivity.
  - apply (H3 (PyStr "[]") (PyList [])); reflexivity.
  - apply (H3 (PyDict [("results", PyList [])]) (PyDict [("results", PyList [])])); reflexivity.
  - apply (H4 (PyStr "null")). reflexivity.
Defined.

(** C1 as stated fails: [None] becomes the record [{"value": "None"}] and
    gives a header and a row; the empty dict has an empty header, and
    still a line for the header and a line for the record. *)
Lemma empty_cases_counterexample :
  json_to_csv sample_runtime PyNone = Return (text_of_lines ["value"; "None"])
  ∧ json_to_csv sample_runtime (PyStr "null") = Return (text_of_lines ["value"; "None"])
  ∧ header_of sample_runtime (PyDict []) = []
  ∧ json_to_csv sample_runtime (PyDict []) = Return (text_of_lines [""; ""])
  ∧ json_to_csv sample_runtime (PyStr "{}") = Return (text_of_lines [""; ""])
  ∧ text_of_lines ["value"; "None"] ≠ ""
  ∧ text_of_lines [""; ""] ≠ "".
Proof. repeat split; (by vm_compute || discriminate). Qed.

(** C2.  The list of records, by the ordered checks of the extractor:
    a dict with the key [results] (whatever else it holds, [last]
    included) gives the list found there, or the one value found there;
    else a dict with the key [last] gives the dict found there, or else
    itself; else a list is the list of records; else the data is the one
    record. *)
Theorem records_dispatch :
  (∀ d elts, dict_get "results" d = Some (PyList elts) → records_of (PyDict d) = elts)
  ∧ (∀ d v, dict_get "results" d = Some v → is_list v = false → records_of (PyDict d) = [v])
  ∧ (∀ d m, dict_get "results" d = None → dict_get "last" d = Some (PyDict m) →
       records_of (PyDict d) = [PyDict m])
  ∧ (∀ d v, dict_get "results" d = None → dict_get "last" d = Some v → is_dict v = false →
       records_of (PyDict d) = [PyDict d])
  ∧ (∀ d, dict_get "results" d = None → dict_get "last" d = None →
       records_of (PyDict d) = [PyDict d])
  ∧ (∀ elts, records_of (PyList elts) = elts)
  ∧ (∀ data, is_dict data = false → is_list data = false → records_of data = [data]).
Proof.
  repeat split.
  - intros d elts H. cbn [records_of]. by rewrite H.
  - intros d v H Hv. cbn [records_of]. rewrite H. by destruct v.
  - intros d m H H'. cbn [records_of]. by rewrite H, H'.
  - intros d v H H' Hv. cbn [records_of]. rewrite H, H'. by rewrite Hv.
  - intros d H H'. cbn [records_of]. by rewrite H, H'.
  - by intros [].
Qed.

Lemma records_dispatch_witness :
  records_of (PyDict [("last", PyDict [("p", PyInt 1)]); ("results", PyList [PyInt 7])])
  = [PyInt 7]
  ∧ records_of (PyDict [("last", PyDict [("p", PyInt 1)]); ("results", PyInt 7)]) = [PyInt 7]
  ∧ records_of (PyDict [("last", PyDict [("p", PyInt 1)])]) = [PyDict [("p", PyInt 1)]]
  ∧ records_of (PyDict [("last", PyInt 3)]) = [PyDict [("last", PyInt 3)]]
  ∧ records_of (PyDict [("x", PyInt 3)]) = [PyDict [("x", PyInt 3)]]
  ∧ records_of (PyInt 3) = [PyInt 3].
Proof.
  destruct records_dispatch as (H1 & H2 & H3 & H4 & H5 & _ & H7).
  split; [ | split; [ | split; [ | split; [ | split ] ] ] ].
  - apply H1. reflexivity.
  - apply H2; reflexivity.
  - apply H3; reflexivity.
  - apply (H4 _ (PyInt 3)); reflexivity.
  - apply H5; reflexivity.
  - apply H7; reflexivity.
Defined.

(** C4.  The header has each key of the rows once, in the order of first
    occurrence when the rows are read in order and the keys of a row in
    their own order; it is a function of that sequence of keys alone. *)
Theorem header_first_occurrences (rows : list (list (string * value))) :
  NoDup (all_keys_of rows)
  ∧ (∀ k, k ∈ all_keys_of rows ↔ ∃ row, row ∈ rows ∧ k ∈ dict_keys row)
  ∧ all_keys_of rows = first_seen (concat (dict_keys <$> rows))
  ∧ (∀ before k after,
       concat (dict_keys <$> rows) = before ++ k :: after → k ∉ before →
       ∃ later, all_keys_of rows = first_seen before ++ k :: later)
  ∧ (∀ rows', concat (dict_keys <$> rows') = concat (dict_keys <$> rows) →
       all_keys_of rows' = all_keys_of rows).
Proof.
  split; [ apply all_keys_of_NoDup | ].
  split; [ apply all_keys_of_elem | ].
  split; [ apply all_keys_of_first_seen | ].
  split.
  - intros before k after Hscan Hk. rewrite all_keys_of_first_seen, Hscan, first_seen_app.
    cbn [first_seen]. rewrite filter_cons, decide_True by done. eauto.
  - intros rows' Heq. by rewrite !all_keys_of_first_seen, Heq.
Qed.

Lemma header_first_occurrences_witness :
  all_keys_of [[("a", PyInt 1); ("b", PyInt 2)]; [("c", PyInt 3); ("a", PyInt 4)]]
  = ["a"; "b"; "c"]
  ∧ ∃ later,
      all_keys_of [[("a", PyInt 1); ("b", PyInt 2)]; [("c", PyInt 3); ("a", PyInt 4)]]
      = first_seen ["a"; "b"] ++ "c" :: later.
Proof.
  split; [ reflexivity | ].
  apply (proj1 (proj2 (proj2 (proj2 (header_first_occurrences
           [[("a", PyInt 1); ("b", PyInt 2)]; [("c", PyInt 3); ("a", PyInt 4)]]))))
           ["a"; "b"] "c" ["a"]).
  - reflexivity.
  - apply (bool_decide_unpack _). vm_compute. exact I.
Defined.

(** C6.  The flattener joins the key of a nested entry to the prefix
    with an underscore (the key alone when the prefix is empty), recurses
    into a dict with the joined key as prefix and merges what comes back
    in order; of two items under one key the later one is kept. *)
Theorem flatten_rules (rt : runtime) :
  (∀ parent_key k,
     new_key_of parent_key "_" k
     = if bool_decide (parent_key = "") then k else parent_key +:+ "_" +:+ k)
  ∧ (∀ k d' rest parent_key sep,
       flatten_loop rt ((k, PyDict d') :: rest) parent_key sep
       = _flatten_dict rt d' (new_key_of parent_key sep k) sep
         ++ flatten_loop rt rest parent_key sep)
  ∧ (∀ k v rest parent_key sep, is_dict v = false →
       flatten_loop rt ((k, v) :: rest) parent_key sep
       = (new_key_of parent_key sep k, leaf_value rt v) :: flatten_loop rt rest parent_key sep)
  ∧ (∀ d parent_key sep k,
       dict_get k (_flatten_dict rt d parent_key sep)
       = dict_get k (reverse (flatten_loop rt d parent_key sep)))
  ∧ (∀ d parent_key sep,
       dict_keys (_flatten_dict rt d parent_key sep)
       = first_seen (flatten_loop rt d parent_key sep).*1)
  ∧ (∀ d path v, NoDup (leaves rt d "" "_").*1 → at_path d path v → is_dict v = false →
       dict_get (path_key "" "_" path) (_flatten_dict rt d "" "_") = Some (leaf_value rt v))
  ∧ json_to_csv rt nested_input = Return (text_of_lines ["a_b,a_c"; "1,2"]).
Proof.
  split; [ done | ].
  split; [ intros; cbn [flatten_loop]; by rewrite flatten_value_dict | ].
  split; [ intros; cbn [flatten_loop]; by rewrite flatten_value_leaf | ].
  split; [ intros; apply dict_of_items_get | ].
  split; [ intros; apply dict_of_items_keys | ].
  split; [ intros; by apply at_path_flat | ].
  destruct rt as [fr jl []]; by vm_compute.
Qed.

Lemma flatten_rules_witness :
  dict_get "a_c"
    (_flatten_dict sample_runtime [("a", PyDict [("b", PyInt 1); ("c", PyInt 2)])] "" "_")
  = Some (PyInt 2).
Proof.
  apply (proj1 (proj2 (proj2 (proj2 (proj2 (proj2 (flatten_rules sample_runtime))))))
           [("a", PyDict [("b", PyInt 1); ("c", PyInt 2)])] ["a"; "c"] (PyInt 2)).
  - apply (bool_decide_unpack _). vm_compute. exact I.
  - apply (at_path_below _ "a" [("b", PyInt 1); ("c", PyInt 2)]).
    + apply list_elem_of_here.
    + apply at_path_here. apply list_elem_of_further, list_elem_of_here.
  - reflexivity.
Defined.

(** C8.  A record that is not a dict is replaced by the dict with the
    one key [value] and the text [str] gives for the record. *)
Theorem non_dict_record (rt : runtime) :
  (∀ record, is_dict record = false →
     flatten_record rt record = [("value", PyStr (py_str rt record))])
  ∧ py_str rt PyNone = "None"
  ∧ py_str rt (PyBool true) = "True"
  ∧ py_str rt (PyBool false) = "False"
  ∧ (∀ n, py_str rt (PyInt n) = int_repr n)
  ∧ (∀ x, py_str rt (PyFloat x) = float_repr rt x)
  ∧ (∀ s, py_str rt (PyStr s) = s)
  ∧ (∀ records, Forall (λ r, is_dict r = false) records →
       flat_rows rt (PyList records) = (λ r, [("value", PyStr (py_str rt r))]) <$> records)
  ∧ (∀ r records, Forall (λ r, is_dict r = false) (r :: records) →
       header_of rt (PyList (r :: records)) = ["value"])
  ∧ json_to_csv rt scalars_input = Return (text_of_lines ["value"; "1"; "2"]).
Proof.
  split; [ by intros [] | ].
  do 6 (split; [ done | ]).
  split; [ apply flat_rows_scalars | ].
  split.
  - intros r records Hall. unfold header_of.
    rewrite flat_rows_scalars, all_keys_of_first_seen by done.
    rewrite fmap_cons. cbn [fmap list_fmap concat dict_keys app].
    apply first_seen_constant. intros y Hy.
    apply elem_of_concat in Hy as (ks & Hks & Hy).
    apply list_elem_of_fmap in Hks as (row & -> & Hrow).
    apply list_elem_of_fmap in Hrow as (r' & -> & _).
    by apply list_elem_of_singleton in Hy.
  - destruct rt as [fr jl []]; by vm_compute.
Qed.

Lemma non_dict_record_witness :
  flatten_record sample_runtime (PyInt 1) = [("value", PyStr "1")]
  ∧ header_of sample_runtime (PyList [PyInt 1; PyNone]) = ["value"]
  ∧ json_to_csv sample_runtime (PyStr "[1, 2]") = Return (text_of_lines ["value"; "1"; "2"]).
Proof.
  destruct (non_dict_record sample_runtime) as (H1 & _ & _ & _ & _ & _ & _ & _ & H9 & _).
  split; [ | split ].
  - apply (H1 (PyInt 1)). reflexivity.
  - apply (H9 (PyInt 1) [PyNone]). repeat constructor.
  - by vm_compute.
Defined.

(** C9.  A field with a comma, a quote or a line feed is written between
    quotes with each quote of its own doubled, and the reader gives the
    field back as it was. *)
Theorem quoted_field_reads_back (rt : runtime) (s : string) :
  str_contains delimiter s || str_contains quotechar s || str_contains LF s = true →
  render_field rt s = in_quotes (csv_copy s)
  ∧ csv_writerow rt [PyStr s] = in_quotes (csv_copy s) +:+ lineterminator
  ∧ (∀ c rest,
       csv_copy (String c rest)
       = if bool_decide (c = quotechar)
         then String quotechar (String quotechar (csv_copy rest))
         else String c (csv_copy rest))
  ∧ csv_read (csv_writerow rt [PyStr s]) = Return [[s]].
Proof.
  intros Hs.
  assert (Hq : csv_quoted rt s = true).
  { apply orb_true_iff in Hs as [Hs | Hs]; [ apply orb_true_iff in Hs as [Hs | Hs] | ].
    - by apply (csv_quoted_contains rt delimiter).
    - by apply (csv_quoted_contains rt quotechar).
    - by apply (csv_quoted_contains rt LF). }
  assert (Hr : render_field rt s = in_quotes (csv_copy s))
    by (unfold render_field; by rewrite Hq).
  split; [ exact Hr | ].
  split; [ | split ].
  - rewrite csv_writerow_text. cbn [fmap list_fmap row_text join cell_text].
    by rewrite Hr.
  - intros c rest. cbn [csv_copy]. by case_bool_decide; subst.
  - pose proof (csv_read_rows rt [[PyStr s]]) as Hread.
    cbn [fmap list_fmap str_concat foldr cell_text] in Hread.
    rewrite str_app_nil_r in Hread. apply Hread.
    constructor; [ constructor; [ by left | constructor ] | constructor ].
Qed.

Lemma quoted_field_reads_back_witness :
  csv_writerow sample_runtime [PyStr "a,b"] = text_of_lines [in_quotes "a,b"]
  ∧ csv_read (csv_writerow sample_runtime [PyStr "a,b"]) = Return [["a,b"]].
Proof.
  destruct (quoted_field_reads_back sample_runtime "a,b") as (_ & Hw & _ & Hr).
  - reflexivity.
  - split; [ exact Hw | exact Hr ].
Defined.

(** * Further properties *)

(** ** Dicts, continued *)

Section DictMore.
Context {V : Type}.
Implicit Types (d items : list (string * V)) (k : string) (v : V).

(** A dict is determined by the order of its keys and the value of each. *)
Lemma dict_ext d d' :
  NoDup (dict_keys d) → dict_keys d = dict_keys d' →
  (∀ k, dict_get k d = dict_get k d') → d = d'.
Proof.
  unfold dict_keys. revert d'.
  induction d as [ | [k v] d IH ]; intros [ | [k' v'] d' ] Hnd Hkeys Hget; try done.
  csimpl in *. injection Hkeys as -> Hkeys.
  apply NoDup_cons in Hnd as [Hk Hnd].
  pose proof (Hget k') as Hk'. csimpl in Hk'. rewrite !decide_True in Hk' by done.
  injection Hk' as ->. f_equal. apply IH; [ done | done | ].
  intros k. destruct (decide (k' = k)) as [-> | Hne].
  - transitivity (@None V); [ | symmetry ]; apply dict_get_None; unfold dict_keys;
      [ done | by rewrite <- Hkeys ].
  - specialize (Hget k). csimpl in Hget. by rewrite !decide_False in Hget by done.
Qed.

Lemma dict_get_reverse d k :
  NoDup (dict_keys d) → dict_get k (reverse d) = dict_get k d.
Proof.
  intros Hnd. destruct (dict_get k d) as [ v | ] eqn:Hg.
  - apply dict_get_NoDup.
    + unfold dict_keys in *. rewrite fmap_reverse. by rewrite reverse_Permutation.
    + apply elem_of_reverse. by apply dict_get_elem.
  - apply dict_get_None. apply dict_get_None in Hg. unfold dict_keys in *.
    rewrite fmap_reverse. by rewrite elem_of_reverse.
Qed.

Lemma dict_of_items_elem items k v :
  (k, v) ∈ dict_of_items items → (k, v) ∈ items.
Proof.
  intros Hin. apply (dict_get_NoDup _ _ _ (dict_of_items_wf items)) in Hin.
  rewrite dict_of_items_get in Hin. apply dict_get_elem in Hin.
  by apply elem_of_reverse.
Qed.

Lemma first_seen_absorb (a b c : list string) :
  first_seen (a ++ first_seen b ++ c) = first_seen (a ++ b ++ c).
Proof.
  rewrite !(first_seen_app a). f_equal. f_equal.
  rewrite !first_seen_app, (first_seen_NoDup_id (first_seen b)) by apply first_seen_NoDup.
  f_equal. apply list_filter_iff. intros x. by rewrite first_seen_elem.
Qed.

(** A dict built inside a list of items can be replaced by its items. *)
Lemma dict_of_items_absorb (a b c : list (string * V)) :
  dict_of_items (a ++ dict_of_items b ++ c) = dict_of_items (a ++ b ++ c).
Proof.
  apply dict_ext.
  - apply dict_of_items_wf.
  - rewrite !dict_of_items_keys, !fmap_app.
    change ((dict_of_items b).*1) with (dict_keys (dict_of_items b)).
    rewrite dict_of_items_keys. apply first_seen_absorb.
  - intros k. rewrite !dict_of_items_get, !reverse_app, !dict_get_app.
    rewrite (dict_get_reverse (dict_of_items b)) by apply dict_of_items_wf.
    by rewrite dict_of_items_get.
Qed.
End DictMore.

(** ** The flattener, continued *)

Section FlattenMore.
Variable rt : runtime.
Implicit Types (d : list (string * value)) (v : value) (k sep : string).

Lemma flatten_value_absorb v new_key sep (a c : list (string * value)) :
  dict_of_items (a ++ flatten_value rt v new_key sep ++ c)
  = dict_of_items (a ++ leaves_value rt v new_key sep ++ c).
Proof.
  revert new_key a c. induction v as [ | | | | | | d IH ] using value_ind;
    intros new_key a c; try done.
  rewrite flatten_value_dict, leaves_value_dict. unfold _flatten_dict.
  rewrite dict_of_items_absorb.
  revert a. induction d as [ | [k v] d IHd ]; intros a; [ done | ].
  apply Forall_cons in IH as [IHv IH]. cbn [flatten_loop leaves].
  rewrite <- !app_assoc, IHv.
  rewrite !(app_assoc a), IHd by done. done.
Qed.

(** The merges made at each depth amount to one merge of all the leaves. *)
Lemma _flatten_dict_of_leaves d parent_key sep :
  _flatten_dict rt d parent_key sep = dict_of_items (leaves rt d parent_key sep).
Proof.
  rewrite <- flatten_value_dict, <- leaves_value_dict.
  pose proof (flatten_value_absorb (PyDict d) parent_key sep [] []) as H.
  rewrite !app_nil_r in H. cbn [app] in H. rewrite <- H.
  rewrite flatten_value_dict. unfold _flatten_dict.
  symmetry. apply dict_of_items_NoDup.
  change ((dict_of_items (flatten_loop rt d parent_key sep)).*1)
    with (dict_keys (dict_of_items (flatten_loop rt d parent_key sep))).
  apply dict_of_items_wf.
Qed.

Lemma leaf_value_scalar v : is_dict v = false → is_scalar (leaf_value rt v) = true.
Proof. by destruct v. Qed.

Lemma leaves_value_scalar v new_key sep :
  Forall (λ kv, is_scalar kv.2 = true) (leaves_value rt v new_key sep).
Proof.
  revert new_key. induction v as [ | | | | | | d IH ] using value_ind; intros new_key;
    try (by repeat constructor).
  rewrite leaves_value_dict.
  induction d as [ | [k v] d IHd ]; [ constructor | ].
  apply Forall_cons in IH as [IHv IH]. cbn [leaves].
  apply Forall_app. split; [ apply IHv | by apply IHd ].
Qed.

Lemma leaves_scalar d parent_key sep :
  Forall (λ kv, is_scalar kv.2 = true) (leaves rt d parent_key sep).
Proof. rewrite <- leaves_value_dict. apply leaves_value_scalar. Qed.

Lemma elem_of_leaves d parent_key sep kv :
  kv ∈ leaves rt d parent_key sep →
  ∃ k v, (k, v) ∈ d ∧ kv ∈ leaves_value rt v (new_key_of parent_key sep k) sep.
Proof.
  induction d as [ | [k v] d IH ]; cbn [leaves]; [ by intros ?%elem_of_nil | ].
  intros [Hin | Hin]%elem_of_app.
  - exists k, v. split; [ by left | done ].
  - destruct (IH Hin) as (k' & v' & Hd & Hkv). exists k', v'. split; [ by right | done ].
Qed.

(** Every leaf is the value met at the end of a path of the record. *)
Lemma leaves_value_from_path v new_key sep kv :
  kv ∈ leaves_value rt v new_key sep →
  (is_dict v = false ∧ kv = (new_key, leaf_value rt v))
  ∨ ∃ d path w, v = PyDict d ∧ at_path d path w ∧ is_dict w = false
      ∧ kv = (path_key new_key sep path, leaf_value rt w).
Proof.
  revert new_key. induction v as [ | | | | | | d IH ] using value_ind; intros new_key Hin;
    try (left; split; [ done | by apply list_elem_of_singleton in Hin ]).
  right. rewrite leaves_value_dict in Hin.
  apply elem_of_leaves in Hin as (k & v & Hd & Hkv).
  rewrite Forall_forall in IH. specialize (IH (k, v) Hd _ Hkv). cbn [snd] in IH.
  destruct IH as [[Hv ->] | (d' & path & w & -> & Hpath & Hw & ->)].
  - exists d, [k], v. repeat split; try done. by apply at_path_here.
  - exists d, (k :: path), w. repeat split; try done. by eapply at_path_below.
Qed.

Lemma leaves_from_path d parent_key sep kv :
  kv ∈ leaves rt d parent_key sep →
  ∃ path v, at_path d path v ∧ is_dict v = false
    ∧ kv = (path_key parent_key sep path, leaf_value rt v).
Proof.
  rewrite <- leaves_value_dict. intros Hin.
  apply leaves_value_from_path in Hin as [[? _] | (d' & path & w & [= <-] & H)]; [ done | ].
  eauto.
Qed.

(** A flat row flattens to itself. *)
Lemma _flatten_dict_flat d sep :
  NoDup (dict_keys d) → Forall (λ kv, is_scalar kv.2 = true) d →
  _flatten_dict rt d "" sep = d.
Proof.
  intros Hnd Hall. unfold _flatten_dict.
  assert (Hloop : flatten_loop rt d "" sep = d).
  { clear Hnd. induction Hall as [ | [k v] d Hv _ IH ]; [ done | ].
    cbn [flatten_loop]. rewrite IH. cbn [snd] in Hv.
    by destruct v. }
  rewrite Hloop. by apply dict_of_items_NoDup.
Qed.

Lemma flatten_record_wf (record : value) :
  NoDup (dict_keys (flatten_record rt record))
  ∧ Forall (λ kv, is_scalar kv.2 = true) (flatten_record rt record).
Proof.
  destruct record as [ | | | | | | d ];
    try (split; [ apply NoDup_singleton | by repeat constructor ]).
  cbn [flatten_record]. split; [ apply dict_of_items_wf | ].
  rewrite _flatten_dict_of_leaves. apply Forall_forall. intros [k v] Hin.
  apply dict_of_items_elem in Hin.
  by apply (proj1 (Forall_forall _ _) (leaves_scalar d "" "_") (k, v)).
Qed.
End FlattenMore.

(** ** Joined keys *)

Lemma str_contains_app (c : ascii) (a b : string) :
  str_contains c (a +:+ b) = str_contains c a || str_contains c b.
Proof.
  induction a as [ | x a IH ]; str_simpl; [ done | ].
  cbn [str_contains]. by rewrite IH, orb_assoc.
Qed.

(** Two texts without the character [c], each followed by [c], start a
    same text only when they are equal. *)
Lemma sep_split (c : ascii) (a b x y : string) :
  str_contains c a = false → str_contains c b = false →
  a +:+ String c x = b +:+ String c y → a = b.
Proof.
  revert b. induction a as [ | u a IH ]; intros [ | w b ]; str_simpl; cbn [str_contains];
    intros Ha Hb Heq; try done.
  - injection Heq as <- _. by rewrite bool_decide_eq_true_2 in Hb.
  - injection Heq as -> _. by rewrite bool_decide_eq_true_2 in Ha.
  - injection Heq as -> Heq.
    apply orb_false_iff in Ha as [_ Ha]. apply orb_false_iff in Hb as [_ Hb].
    f_equal. by apply IH.
Qed.

Lemma new_key_of_prefix (parent_key sep : string) :
  ∃ prefix, ∀ k, new_key_of parent_key sep k = prefix +:+ k.
Proof.
  unfold new_key_of. case_bool_decide.
  - by exists "".
  - exists (parent_key +:+ sep). intros k. by rewrite str_app_assoc.
Qed.

Lemma new_key_of_not_nil (parent_key sep k : string) :
  k ≠ "" → new_key_of parent_key sep k ≠ "".
Proof.
  unfold new_key_of. case_bool_decide; [ done | ].
  intros _ [? _]%str_app_eq_nil. done.
Qed.

(** Below a prefix that is not empty, a path is joined into the prefix
    followed by each key behind a separator. *)
Lemma path_key_below (parent_key sep : string) (path : list string) :
  parent_key ≠ "" →
  path_key parent_key sep path
  = parent_key +:+ str_concat ((λ k, sep +:+ k) <$> path).
Proof.
  revert parent_key. induction path as [ | k path IH ]; intros parent_key Hp.
  - cbn. by rewrite str_app_nil_r.
  - cbn [path_key foldl]. fold (path_key (new_key_of parent_key sep k) sep path).
    rewrite IH.
    + unfold new_key_of. rewrite bool_decide_eq_false_2 by done.
      rewrite fmap_cons. cbn [str_concat foldr]. by rewrite !str_app_assoc.
    + unfold new_key_of. rewrite bool_decide_eq_false_2 by done.
      by intros [? _]%str_app_eq_nil.
Qed.

Lemma join_cons_concat (sep r : string) (rs : list string) :
  join sep (r :: rs) = r +:+ str_concat ((λ s, sep +:+ s) <$> rs).
Proof.
  revert r. induction rs as [ | r' rs IH ]; intros r.
  - cbn. by rewrite str_app_nil_r.
  - change (join sep (r :: r' :: rs)) with (r +:+ sep +:+ join sep (r' :: rs)).
    rewrite IH, fmap_cons. cbn [str_concat foldr]. by rewrite !str_app_assoc.
Qed.

(** From the top, a path whose first key is not empty is joined as
    [sep.join(path)]. *)
Lemma path_key_join (sep k : string) (path : list string) :
  k ≠ "" → path_key "" sep (k :: path) = join sep (k :: path).
Proof.
  intros Hk. cbn [path_key foldl]. fold (path_key (new_key_of "" sep k) sep path).
  change (new_key_of "" sep k) with k.
  by rewrite path_key_below, join_cons_concat.
Qed.

Section PlainKeys.
Variable rt : runtime.

Lemma plain_keys_dict (d : list (string * value)) :
  plain_keys (PyDict d)
  ↔ NoDup (dict_keys d) ∧ Forall (λ kv, plain_key kv.1 ∧ plain_keys kv.2) d.
Proof.
  cbn [plain_keys]. apply and_iff_compat_l.
  induction d as [ | [k w] d IH ]; [ by split; [ constructor | ] | ].
  rewrite Forall_cons, <- IH. cbn [fst snd]. tauto.
Qed.

(** The keys of the leaves of a value met under a key that is not empty
    are that key, or start with it and a separator. *)
Lemma leaves_value_extends (v : value) (new_key : string) (kv : string * value) :
  new_key ≠ "" → kv ∈ leaves_value rt v new_key "_" →
  kv.1 = new_key ∨ ∃ x, kv.1 = new_key +:+ "_" +:+ x.
Proof.
  intros Hnk Hin.
  apply leaves_value_from_path in Hin as [[_ ->] | (d & path & w & _ & Hpath & _ & ->)];
    [ by left | ].
  right. cbn [fst]. rewrite path_key_below by done.
  destruct Hpath as [ d k w _ | d k d' path w _ _ ].
  - exists k. cbn. by rewrite str_app_nil_r.
  - eexists. rewrite fmap_cons. cbn [str_concat foldr]. reflexivity.
Qed.

Lemma extends_disjoint (prefix k1 k2 key : string) :
  plain_key k1 → plain_key k2 → k1 ≠ k2 →
  (key = prefix +:+ k1 ∨ ∃ x, key = (prefix +:+ k1) +:+ "_" +:+ x) →
  (key = prefix +:+ k2 ∨ ∃ x, key = (prefix +:+ k2) +:+ "_" +:+ x) →
  False.
Proof.
  intros [_ H1] [_ H2] Hne [-> | [x ->]] [Heq | [y Heq]].
  - by apply (inj (String.app prefix)) in Heq.
  - rewrite str_app_assoc in Heq. apply (inj (String.app prefix)) in Heq. subst k1.
    rewrite str_contains_app in H1. apply orb_false_iff in H1 as [_ H1].
    cbn in H1. done.
  - rewrite str_app_assoc in Heq. apply (inj (String.app prefix)) in Heq. subst k2.
    rewrite str_contains_app in H2. apply orb_false_iff in H2 as [_ H2].
    cbn in H2. done.
  - rewrite !str_app_assoc in Heq. apply (inj (String.app prefix)) in Heq.
    apply Hne. by eapply (sep_split "_").
Qed.

(** With distinct plain keys in every dict, no two leaves are joined into
    the same key. *)
Lemma leaves_value_NoDup (v : value) (new_key : string) :
  plain_keys v → NoDup (leaves_value rt v new_key "_").*1.
Proof.
  revert new_key. induction v as [ | | | | | | d IH ] using value_ind; intros new_key Hpk;
    try apply NoDup_singleton.
  rewrite leaves_value_dict. apply plain_keys_dict in Hpk as [Hnd Hall].
  destruct (new_key_of_prefix new_key "_") as [prefix Hprefix].
  unfold dict_keys in Hnd.
  induction d as [ | [k v] d IHd ]; [ constructor | ].
  apply Forall_cons in IH as [IHv IH]. apply Forall_cons in Hall as [[Hk Hv] Hall].
  csimpl in Hnd. apply NoDup_cons in Hnd as [Hkd Hnd].
  cbn [leaves]. rewrite fmap_app. apply NoDup_app. split; [ by apply IHv | ].
  split; [ | by apply IHd ].
  intros key Hin1 Hin2.
  apply list_elem_of_fmap in Hin1 as (kv1 & -> & Hin1).
  apply list_elem_of_fmap in Hin2 as (kv2 & Heq & Hin2).
  apply elem_of_leaves in Hin2 as (k' & v' & Hd & Hin2).
  assert (Hk' : plain_key k')
    by (apply (proj1 (Forall_forall _ _) Hall (k', v') Hd)).
  apply leaves_value_extends in Hin1; [ | apply new_key_of_not_nil, Hk ].
  apply leaves_value_extends in Hin2; [ | apply new_key_of_not_nil, Hk' ].
  rewrite <- Heq in Hin2. rewrite !Hprefix in Hin1, Hin2.
  apply (extends_disjoint prefix k k' kv1.1 Hk Hk'); [ | done | done ].
  intros ->. apply Hkd. apply list_elem_of_fmap. by exists (k', v').
Qed.

Lemma leaves_NoDup (d : list (string * value)) (parent_key : string) :
  plain_keys (PyDict d) → NoDup (leaves rt d parent_key "_").*1.
Proof. rewrite <- leaves_value_dict. apply leaves_value_NoDup. Qed.

Lemma at_path_head (d : list (string * value)) (path : list string) (v : value) :
  at_path d path v → ∃ k rest w, path = k :: rest ∧ (k, w) ∈ d.
Proof. intros [ d' k w Hin | d' k d'' rest w Hin _ ]; eauto. Qed.
End PlainKeys.

(** ** The conversion, continued *)

Lemma records_of_nil_iff (data : value) :
  records_of data = []
  ↔ data = PyList [] ∨ ∃ d, data = PyDict d ∧ dict_get "results" d = Some (PyList []).
Proof.
  split.
  - destruct data as [ | | | | | elts | d ]; cbn [records_of]; try done.
    + intros ->. by left.
    + destruct (dict_get "results" d) as [ v | ] eqn:Hr.
      * destruct v; try done. intros ->. right. eauto.
      * destruct (dict_get "last" d) as [ v | ]; [ by destruct (is_dict v) | done ].
  - intros [-> | (d & -> & Hr)]; [ done | ]. cbn [records_of]. by rewrite Hr.
Qed.

Lemma reads_back_always (rt : runtime) (s : string) :
  cr_is_special rt = true → reads_back rt s.
Proof.
  intros Hcr. destruct (str_contains CR s) eqn:Hs; [ left | by right ].
  apply (csv_quoted_contains rt CR); [ | done ].
  unfold csv_special. rewrite Hcr. by rewrite (bool_decide_eq_true_2 (CR = CR)), !orb_true_r.
Qed.

Lemma count_char_app (c : ascii) (a b : string) :
  count_char c (a +:+ b) = count_char c a + count_char c b.
Proof.
  induction a as [ | x a IH ]; str_simpl; [ done | ]. cbn [count_char]. rewrite IH. lia.
Qed.

Lemma count_char_concat (c : ascii) (parts : list string) :
  count_char c (str_concat parts) = sum_list (count_char c <$> parts).
Proof.
  induction parts as [ | p parts IH ]; [ done | ].
  cbn [str_concat foldr]. fold (str_concat parts).
  by rewrite count_char_app, IH, fmap_cons.
Qed.

Section LineFeeds.
Variable rt : runtime.

Lemma count_LF_csv_copy (s : string) : count_char LF (csv_copy s) = count_char LF s.
Proof.
  induction s as [ | c s IH ]; [ done | ]. cbn [csv_copy].
  case_bool_decide as Hc; cbn [count_char]; rewrite IH; [ | done ].
  subst c. by rewrite !(bool_decide_eq_false_2 (quotechar = LF)).
Qed.

Lemma count_LF_render_field (s : string) :
  count_char LF (render_field rt s) = count_char LF s.
Proof.
  unfold render_field, in_quotes. destruct (csv_quoted rt s); [ | done ].
  cbn [count_char]. rewrite count_char_app, count_LF_csv_copy. cbn [count_char].
  rewrite !(bool_decide_eq_false_2 (quotechar = LF)) by done. lia.
Qed.

Lemma count_LF_join (rs : list string) :
  count_char LF (join (String delimiter "") rs) = sum_list (count_char LF <$> rs).
Proof.
  destruct rs as [ | r rs ]; [ done | ].
  rewrite join_cons_concat, count_char_app, count_char_concat, fmap_cons.
  cbn [sum_list sum_list_with]. f_equal.
  rewrite <- list_fmap_compose. induction rs as [ | r' rs IH ]; [ done | ].
  rewrite !fmap_cons. cbn [sum_list sum_list_with]. by rewrite IH.
Qed.

Lemma count_LF_row_text (cells : list string) :
  count_char LF (row_text rt cells) = sum_list (count_char LF <$> cells).
Proof.
  destruct cells as [ | s cells ]; [ done | ]. unfold row_text.
  pose proof (count_LF_join (render_field rt <$> s :: cells)) as Hj.
  rewrite <- list_fmap_compose in Hj.
  rewrite (list_fmap_ext _ (count_char LF) (s :: cells)) in Hj
    by (intros; apply count_LF_render_field).
  case_bool_decide as Hbody; [ | exact Hj ].
  rewrite Hbody in Hj. by rewrite <- Hj.
Qed.

(** A record has one line feed more than its fields hold. *)
Lemma count_LF_csv_writerow (vs : list value) :
  count_char LF (csv_writerow rt vs)
  = sum_list (count_char LF <$> (cell_text rt <$> vs)) + 1.
Proof.
  rewrite csv_writerow_text, count_char_app, count_LF_row_text. done.
Qed.
End LineFeeds.

Lemma sum_list_succ {A : Type} (f : A → nat) (l : list A) :
  sum_list ((λ x, f x + 1) <$> l) = sum_list (f <$> l) + length l.
Proof.
  induction l as [ | x l IH ]; [ done | ].
  rewrite !fmap_cons. simpl. simpl in IH. rewrite IH. lia.
Qed.

Lemma convert_only_records (rt : runtime) (data data' : value) :
  records_of data = records_of data' → convert rt data = convert rt data'.
Proof. intros Heq. unfold convert. by rewrite Heq. Qed.

Lemma first_seen_concat_absorb (ls : list (list string)) :
  first_seen (concat (first_seen <$> ls)) = first_seen (concat ls).
Proof.
  induction ls as [ | l ls IH ]; [ done | ].
  rewrite fmap_cons. cbn [concat].
  pose proof (first_seen_absorb [] l (concat (first_seen <$> ls))) as H.
  cbn [app] in H. rewrite H.
  by rewrite !first_seen_app, IH.
Qed.

Lemma flatten_record_keys (rt : runtime) (record : value) :
  dict_keys (flatten_record rt record) = first_seen (record_leaves rt record).*1.
Proof.
  destruct record; try done. cbn [flatten_record record_leaves].
  rewrite _flatten_dict_of_leaves. apply dict_of_items_keys.
Qed.

(** * Further properties of [formatters.py] *)

(** X1.  [_flatten_dict] builds a dict at every depth, and the result is
    the one dict of all the leaves in depth-first order: its keys are the
    joined keys in the order of their first occurrence, and each holds the
    value of the last leaf joined into it. *)
Theorem flatten_is_one_merge (rt : runtime) (d : list (string * value))
    (parent_key sep : string) :
  _flatten_dict rt d parent_key sep = dict_of_items (leaves rt d parent_key sep)
  ∧ dict_keys (_flatten_dict rt d parent_key sep)
    = first_seen (leaves rt d parent_key sep).*1
  ∧ (∀ k, dict_get k (_flatten_dict rt d parent_key sep)
          = dict_get k (reverse (leaves rt d parent_key sep))).
Proof.
  rewrite _flatten_dict_of_leaves.
  split; [ done | split ]; [ apply dict_of_items_keys | intros k; apply dict_of_items_get ].
Qed.

(** X2.  A flat row has no nested structure and no key twice: every value
    of [_flatten_dict], and of the row made for any record, is neither a
    dict nor a list, and the keys are distinct. *)
Theorem flat_row_invariants (rt : runtime) :
  (∀ d parent_key sep,
     NoDup (dict_keys (_flatten_dict rt d parent_key sep))
     ∧ Forall (λ kv, is_dict kv.2 = false ∧ is_list kv.2 = false)
         (_flatten_dict rt d parent_key sep))
  ∧ (∀ record,
       NoDup (dict_keys (flatten_record rt record))
       ∧ Forall (λ kv, is_dict kv.2 = false ∧ is_list kv.2 = false)
           (flatten_record rt record)).
Proof.
  assert (Hscalar : ∀ v, is_scalar v = true → is_dict v = false ∧ is_list v = false)
    by (by intros []).
  split.
  - intros d parent_key sep. split; [ apply dict_of_items_wf | ].
    rewrite _flatten_dict_of_leaves. apply Forall_forall. intros [k v] Hin.
    apply dict_of_items_elem in Hin. apply Hscalar.
    by apply (proj1 (Forall_forall _ _) (leaves_scalar rt d parent_key sep) (k, v)).
  - intros record. destruct (flatten_record_wf rt record) as [Hnd Hall].
    split; [ done | ]. eapply Forall_impl; [ exact Hall | ]. intros kv. apply Hscalar.
Qed.

(** X3.  Flattening is idempotent: a flat row flattens to itself, so
    converting the flat rows of some data gives the text the data gave. *)
Theorem flatten_idempotent (rt : runtime) :
  (∀ record,
     _flatten_dict rt (flatten_record rt record) "" "_" = flatten_record rt record)
  ∧ (∀ data,
       flat_rows rt (PyList (PyDict <$> flat_rows rt data)) = flat_rows rt data)
  ∧ (∀ data,
       convert rt (PyList (PyDict <$> flat_rows rt data)) = convert rt data).
Proof.
  assert (H1 : ∀ record,
    _flatten_dict rt (flatten_record rt record) "" "_" = flatten_record rt record).
  { intros record. destruct (flatten_record_wf rt record).
    by apply _flatten_dict_flat. }
  assert (H2 : ∀ data,
    flat_rows rt (PyList (PyDict <$> flat_rows rt data)) = flat_rows rt data).
  { intros data. unfold flat_rows at 1. cbn [records_of].
    rewrite <- list_fmap_compose. unfold flat_rows.
    rewrite <- list_fmap_compose. apply list_fmap_ext. intros i r _.
    cbn [compose flatten_record]. apply H1. }
  split; [ exact H1 | split; [ exact H2 | ] ].
  intros data. rewrite !convert_ok. unfold header_of. by rewrite H2.
Qed.

(** X4.  When, in every dict the flattener goes through, the keys are
    distinct, not empty and without an underscore, nothing is merged
    away: the flat row is the list of the leaves, and the value at the end
    of a path is found under the keys of the path joined by
    underscores. *)
Theorem plain_keys_lossless (rt : runtime) (d : list (string * value)) :
  plain_keys (PyDict d) →
  _flatten_dict rt d "" "_" = leaves rt d "" "_"
  ∧ (∀ path v, at_path d path v → is_dict v = false →
       dict_get (join "_" path) (_flatten_dict rt d "" "_") = Some (leaf_value rt v)).
Proof.
  intros Hpk. pose proof (leaves_NoDup rt d "" Hpk) as Hnd.
  split; [ by apply _flatten_dict_leaves | ].
  intros path v Hpath Hv.
  destruct (at_path_head d path v Hpath) as (k & rest & w & -> & Hin).
  apply plain_keys_dict in Hpk as [_ Hall].
  destruct (proj1 (Forall_forall _ _) Hall (k, w) Hin) as [[Hk _] _].
  rewrite <- path_key_join by done. by apply at_path_flat.
Qed.

Lemma plain_keys_lossless_witness :
  dict_get "a_b_c"
    (_flatten_dict sample_runtime
       [("a", PyDict [("b", PyDict [("c", PyInt 1)]); ("d", PyNone)]); ("e", PyInt 2)] "" "_")
  = Some (PyInt 1).
Proof.
  apply (proj2 (plain_keys_lossless sample_runtime
           [("a", PyDict [("b", PyDict [("c", PyInt 1)]); ("d", PyNone)]); ("e", PyInt 2)]
           ltac:(cbn [plain_keys]; unfold plain_key;
                 repeat split; (discriminate || apply (bool_decide_unpack _); vm_compute;
                                exact I)))
           ["a"; "b"; "c"] (PyInt 1)).
  - apply (at_path_below _ "a" [("b", PyDict [("c", PyInt 1)]); ("d", PyNone)]);
      [ apply list_elem_of_here | ].
    apply (at_path_below _ "b" [("c", PyInt 1)]); [ apply list_elem_of_here | ].
    apply at_path_here, list_elem_of_here.
  - reflexivity.
Defined.

(** X5.  Nothing is invented: every item of a flat row is the value at the
    end of some path of the record (a list as its text), under the joined
    key of that path. *)
Theorem column_comes_from_path (rt : runtime) (d : list (string * value))
    (parent_key sep k : string) (w : value) :
  (k, w) ∈ _flatten_dict rt d parent_key sep →
  ∃ path v, at_path d path v ∧ is_dict v = false
    ∧ k = path_key parent_key sep path ∧ w = leaf_value rt v.
Proof.
  rewrite _flatten_dict_of_leaves. intros Hin%dict_of_items_elem.
  apply leaves_from_path in Hin as (path & v & Hpath & Hv & [= -> ->]).
  by exists path, v.
Qed.

Lemma column_comes_from_path_witness :
  ∃ path v,
    at_path [("a", PyDict [("tags", PyList [PyInt 1])])] path v ∧ is_dict v = false
    ∧ "a_tags" = path_key "" "_" path ∧ PyStr "[1]" = leaf_value sample_runtime v.
Proof.
  apply (column_comes_from_path sample_runtime [("a", PyDict [("tags", PyList [PyInt 1])])]
           "" "_" "a_tags" (PyStr "[1]")).
  vm_compute. apply list_elem_of_here.
Defined.

(** X6.  The joined key of a path: from the top, with a first key that is
    not empty, it is the keys joined by the separator; an empty first key
    leaves no trace, separator included. *)
Theorem path_key_is_join (sep : string) (path : list string) :
  (∀ k, k ≠ "" → path_key "" sep (k :: path) = join sep (k :: path))
  ∧ path_key "" sep ("" :: path) = path_key "" sep path.
Proof. split; [ intros k Hk; by apply path_key_join | done ]. Qed.

Lemma path_key_is_join_witness :
  path_key "" "_" ["a"; "b"; "c"] = "a_b_c" ∧ path_key "" "_" [""; "b"] = "b".
Proof.
  split.
  - rewrite (proj1 (path_key_is_join "_" ["b"; "c"]) "a"); [ reflexivity | discriminate ].
  - rewrite (proj2 (path_key_is_join "_" ["b"])). reflexivity.
Defined.

(** X7.  The conversion returns the empty text in three cases and no
    other: the input is a string that does not parse, the data is the
    empty list, or the data is a dict whose [results] is the empty
    list. *)
Theorem empty_output_iff (rt : runtime) (json_input : value) :
  json_to_csv rt json_input = Return ""
  ↔ parsed rt json_input = None
    ∨ parsed rt json_input = Some (PyList [])
    ∨ ∃ d, parsed rt json_input = Some (PyDict d)
           ∧ dict_get "results" d = Some (PyList []).
Proof.
  rewrite json_to_csv_parsed. destruct (parsed rt json_input) as [ data | ].
  - rewrite convert_nil_iff, records_of_nil_iff. split.
    + intros [-> | (d & -> & Hr)]; [ by right; left | right; right; eauto ].
    + intros [? | [[= ->] | (d & [= ->] & Hr)]]; [ done | by left | right; eauto ].
  - split; [ by left | done ].
Qed.

(** X8.  What the conversion returns reads back with [csv.reader] as the
    header followed by one record of fields for each extracted record,
    each with as many fields as the header; this for a writer that quotes
    a carriage return, and for any writer when no column name and no field
    has one. *)
Theorem output_reads_back (rt : runtime) (json_input data : value) :
  parsed rt json_input = Some data →
  records_of data ≠ [] →
  cr_is_special rt = true
  ∨ (Forall (λ s, str_contains CR s = false) (header_of rt data)
     ∧ Forall (λ row, Forall (λ v, str_contains CR (cell_text rt v) = false)
                        (cells_of (header_of rt data) row)) (flat_rows rt data)) →
  ∃ text records,
    json_to_csv rt json_input = Return text
    ∧ csv_read text = Return records
    ∧ records = header_of rt data
                :: ((λ row, cell_text rt <$> cells_of (header_of rt data) row)
                    <$> flat_rows rt data)
    ∧ length records = 1 + length (records_of data)
    ∧ Forall (λ r, length r = length (header_of rt data)) records.
Proof.
  intros Hp Hne Hcr.
  destruct (convert_reads_back rt data Hne) as (text & Hconv & Hread).
  - destruct Hcr as [Hcr | [Hh _]].
    + apply Forall_forall. intros s _. by apply reads_back_always.
    + eapply Forall_impl; [ exact Hh | ]. intros s Hs. by right.
  - destruct Hcr as [Hcr | [_ Hr]].
    + apply Forall_forall. intros row _. apply Forall_forall. intros v _.
      by apply reads_back_always.
    + eapply Forall_impl; [ exact Hr | ]. intros row Hrow.
      eapply Forall_impl; [ exact Hrow | ]. intros v Hv. by right.
  - eexists text, _. rewrite json_to_csv_parsed, Hp.
    split; [ exact Hconv | ]. split; [ exact Hread | ]. split; [ done | ]. split.
    + cbn [length]. unfold flat_rows. by rewrite !length_fmap.
    + constructor; [ done | ]. apply Forall_fmap, Forall_forall. intros row _.
      cbn [compose]. unfold cells_of. by rewrite !length_fmap.
Qed.

Lemma output_reads_back_witness :
  ∃ text, json_to_csv sample_runtime results_list_input = Return text
    ∧ csv_read text = Return [["a"; "b"]; ["1"; ""]; ["2"; "3"]].
Proof.
  destruct (output_reads_back sample_runtime results_list_input results_list_input)
    as (text & records & Hconv & Hread & Hrecords & _).
  - reflexivity.
  - discriminate.
  - right. split; apply (bool_decide_unpack _); vm_compute; exact I.
  - exists text. split; [ exact Hconv | ]. rewrite Hread, Hrecords. reflexivity.
Defined.

(** X9.  The text has one line feed for the header, one for each
    extracted record, and those the column names and the fields hold
    themselves: without a line feed inside a name or a field, the lines of
    the text are the header and one line for each record. *)
Theorem line_feed_count (rt : runtime) (json_input data : value) :
  parsed rt json_input = Some data →
  records_of data ≠ [] →
  ∃ text,
    json_to_csv rt json_input = Return text
    ∧ count_char LF text
      = 1 + length (records_of data)
        + sum_list (count_char LF <$> header_of rt data)
        + sum_list ((λ row, sum_list (count_char LF
                                        <$> (cell_text rt <$> cells_of (header_of rt data) row)))
                    <$> flat_rows rt data).
Proof.
  intros Hp Hne. eexists. rewrite json_to_csv_parsed, Hp.
  split; [ by apply convert_records | ].
  set (header := header_of rt data).
  assert (Hhead : count_char LF (csv_writerow rt (PyStr <$> header))
                  = sum_list (count_char LF <$> header) + 1).
  { rewrite count_LF_csv_writerow.
    replace (cell_text rt <$> (PyStr <$> header)) with header; [ done | ].
    rewrite <- list_fmap_compose. symmetry. apply list_fmap_id. }
  assert (Hrows : ∀ rows : list (list (string * value)),
    sum_list (count_char LF <$> (csv_writerow rt <$> (cells_of header <$> rows)))
    = sum_list ((λ row, sum_list (count_char LF <$> (cell_text rt <$> cells_of header row)))
                <$> rows) + length rows).
  { induction rows as [ | row rows IH ]; [ done | ].
    rewrite !fmap_cons. simpl. simpl in IH. rewrite IH, count_LF_csv_writerow. lia. }
  rewrite count_char_concat, !fmap_cons. simpl. simpl in Hrows.
  rewrite Hhead, Hrows. unfold flat_rows at 2. rewrite length_fmap. lia.
Qed.

Lemma line_feed_count_witness :
  ∃ text, json_to_csv sample_runtime results_list_input = Return text
    ∧ count_char LF text = 3.
Proof.
  destruct (line_feed_count sample_runtime results_list_input results_list_input)
    as (text & Hconv & Hcount).
  - reflexivity.
  - discriminate.
  - exists text. split; [ exact Hconv | ]. rewrite Hcount. reflexivity.
Defined.

(** X10.  Only the extracted records reach the text: a dict with a
    [results] list converts as that list alone, whatever other keys it
    has, and a [results] dict, or a [last] dict without [results],
    converts as the list of that one dict. *)
Theorem only_records_matter (rt : runtime) (d : list (string * value)) :
  (∀ elts, dict_get "results" d = Some (PyList elts) →
     json_to_csv rt (PyDict d) = json_to_csv rt (PyList elts))
  ∧ (∀ m, dict_get "results" d = Some (PyDict m) →
       json_to_csv rt (PyDict d) = json_to_csv rt (PyList [PyDict m]))
  ∧ (∀ m, dict_get "results" d = None → dict_get "last" d = Some (PyDict m) →
       json_to_csv rt (PyDict d) = json_to_csv rt (PyList [PyDict m])).
Proof.
  repeat split; intros; cbn [json_to_csv]; apply convert_only_records;
    cbn [records_of]; by repeat match goal with H : _ = _ |- _ => rewrite H end.
Qed.

Lemma only_records_matter_witness :
  json_to_csv sample_runtime
    (PyDict [("status", PyStr "OK"); ("results", PyList [PyInt 1; PyInt 2]); ("count", PyInt 2)])
  = Return (text_of_lines ["value"; "1"; "2"]).
Proof.
  rewrite (proj1 (only_records_matter sample_runtime
             [("status", PyStr "OK"); ("results", PyList [PyInt 1; PyInt 2]); ("count", PyInt 2)])
             [PyInt 1; PyInt 2] eq_refl).
  reflexivity.
Defined.

(** X11.  The header from the input: the joined keys of the leaves of all
    the records, records in order and each record depth first, every key
    at its first occurrence. *)
Theorem header_from_leaves (rt : runtime) (data : value) :
  header_of rt data
  = first_seen (concat ((λ record, (record_leaves rt record).*1) <$> records_of data)).
Proof.
  unfold header_of, flat_rows. rewrite all_keys_of_first_seen.
  rewrite <- list_fmap_compose.
  rewrite (list_fmap_ext (dict_keys ∘ flatten_record rt)
             (first_seen ∘ (λ record, (record_leaves rt record).*1)) (records_of data))
    by (intros; apply flatten_record_keys).
  rewrite list_fmap_compose. apply first_seen_concat_absorb.
Qed.

(** * Lines, joined keys that meet, and the limits of the interpreter *)

(** ** The last leaf under a key *)

Lemma dict_get_last {V : Type} (before after : list (string * V)) (k : string) (v : V) :
  k ∉ after.*1 → dict_get k (reverse (before ++ (k, v) :: after)) = Some v.
Proof.
  intros Hk. rewrite reverse_app, reverse_cons, <- app_assoc, dict_get_app.
  assert (Hafter : dict_get k (reverse after) = None).
  { apply dict_get_None. unfold dict_keys. by rewrite fmap_reverse, elem_of_reverse. }
  rewrite Hafter. csimpl. by rewrite decide_True.
Qed.

(** The row holds under a key the value of the last leaf joined into
    it. *)
Lemma last_leaf_wins (rt : runtime) (d before after : list (string * value))
    (parent_key sep k : string) (v : value) :
  leaves rt d parent_key sep = before ++ (k, v) :: after → k ∉ after.*1 →
  dict_get k (_flatten_dict rt d parent_key sep) = Some v.
Proof.
  intros Hl Hk. rewrite _flatten_dict_of_leaves, dict_of_items_get, Hl.
  by apply dict_get_last.
Qed.

Lemma leaf_key_in_row (rt : runtime) (d : list (string * value)) (parent_key sep k : string)
    (v : value) :
  (k, v) ∈ leaves rt d parent_key sep → k ∈ dict_keys (_flatten_dict rt d parent_key sep).
Proof.
  intros Hin. rewrite _flatten_dict_of_leaves, dict_of_items_keys, first_seen_elem.
  apply list_elem_of_fmap. by exists (k, v).
Qed.

Lemma flat_get_leaves (rt : runtime) (d : list (string * value)) (parent_key sep k : string) :
  dict_get k (_flatten_dict rt d parent_key sep)
  = dict_get k (reverse (leaves rt d parent_key sep)).
Proof. by rewrite _flatten_dict_of_leaves, dict_of_items_get. Qed.

(** ** Lines *)

Lemma sum_list_zero {A : Type} (f : A → nat) (l : list A) :
  Forall (λ x, f x = 0) l → sum_list (f <$> l) = 0.
Proof.
  induction 1 as [ | x l Hx _ IH ]; [ done | ].
  rewrite fmap_cons. simpl. simpl in IH. rewrite Hx, IH. done.
Qed.

Lemma count_LF_text_of_lines (lines : list string) :
  Forall (λ l, count_char LF l = 0) lines →
  count_char LF (text_of_lines lines) = length lines.
Proof.
  induction 1 as [ | l lines Hl _ IH ]; [ done | ].
  cbn [text_of_lines length]. rewrite !count_char_app, Hl, IH. done.
Qed.

(** The line feeds of the text: one for each record written, and those
    of the fields. *)
Lemma convert_line_feeds (rt : runtime) (data : value) :
  records_of data ≠ [] →
  ∃ text,
    convert rt data = Return text
    ∧ count_char LF text
      = 1 + length (records_of data)
        + sum_list (count_char LF <$> header_of rt data)
        + sum_list ((λ row, sum_list (count_char LF
                                        <$> (cell_text rt <$> cells_of (header_of rt data) row)))
                    <$> flat_rows rt data).
Proof.
  intros Hne. eexists. split; [ by apply convert_records | ].
  set (header := header_of rt data).
  assert (Hhead : count_char LF (csv_writerow rt (PyStr <$> header))
                  = sum_list (count_char LF <$> header) + 1).
  { rewrite count_LF_csv_writerow.
    replace (cell_text rt <$> (PyStr <$> header)) with header; [ done | ].
    rewrite <- list_fmap_compose. symmetry. apply list_fmap_id. }
  assert (Hrows : ∀ rows : list (list (string * value)),
    sum_list (count_char LF <$> (csv_writerow rt <$> (cells_of header <$> rows)))
    = sum_list ((λ row, sum_list (count_char LF <$> (cell_text rt <$> cells_of header row)))
                <$> rows) + length rows).
  { induction rows as [ | row rows IH ]; [ done | ].
    rewrite !fmap_cons. simpl. simpl in IH. rewrite IH, count_LF_csv_writerow. lia. }
  rewrite count_char_concat, !fmap_cons. simpl. simpl in Hrows.
  rewrite Hhead, Hrows. unfold flat_rows at 2. rewrite length_fmap. lia.
Qed.

(** Without a line feed in a column name or a field, the text is one
    line for the header and one for each record. *)
Lemma convert_one_line_each (rt : runtime) (data : value) :
  records_of data ≠ [] →
  Forall (λ k, count_char LF k = 0) (header_of rt data) →
  Forall (λ row, Forall (λ v, count_char LF (cell_text rt v) = 0)
                   (cells_of (header_of rt data) row)) (flat_rows rt data) →
  ∃ text, convert rt data = Return text ∧ one_line_each data text.
Proof.
  intros Hne Hhead Hrows. eexists. split; [ by apply convert_records | ].
  set (rows := (PyStr <$> header_of rt data)
               :: (cells_of (header_of rt data) <$> flat_rows rt data)).
  exists ((λ vs, row_text rt (cell_text rt <$> vs)) <$> rows).
  split; [ | split ].
  - unfold rows. cbn [fmap list_fmap length]. unfold flat_rows.
    by rewrite !length_fmap.
  - apply Forall_fmap. unfold rows. constructor.
    + cbn [compose]. rewrite count_LF_row_text, <- !list_fmap_compose.
      apply sum_list_zero. exact Hhead.
    + apply Forall_fmap. eapply Forall_impl; [ exact Hrows | ].
      intros row Hrow. cbn [compose]. rewrite count_LF_row_text, <- list_fmap_compose.
      apply sum_list_zero. exact Hrow.
  - rewrite text_of_lines_concat, <- list_fmap_compose. f_equal.
    apply list_fmap_ext. intros i vs _. cbn [compose]. apply csv_writerow_text.
Qed.

(** ** The module within the limits of the interpreter

    When [json.loads] raises nothing but [JSONDecodeError], the records
    are within the recursion limit and every [int] is within the digit
    limit, each function of [Limits] returns what the function of the
    same name returns without limits. *)

Lemma forallb_Forall {A : Type} (f : A → bool) (l : list A) :
  forallb f l = true ↔ Forall (λ x, f x = true) l.
Proof.
  induction l as [ | x l IH ]; simpl.
  - split; [ constructor | done ].
  - rewrite andb_true_iff, IH, Forall_cons. done.
Qed.

Lemma mapM_Return {A B : Type} (f : A → result B) (g : A → B) (l : list A) :
  Forall (λ x, f x = Return (g x)) l → mapM f l = Return (g <$> l).
Proof.
  induction 1 as [ | x l Hx _ IH ]; [ done | ].
  cbn [mapM]. fold (mapM f l). rewrite Hx, IH. done.
Qed.

Section LimitsFacts.
Variable it : Limits.interpreter.
Implicit Types (d : list (string * value)) (v : value) (k sep : string).

Lemma limits_py_repr v :
  Limits.ints_ok it v = true → Limits.py_repr it v = Return (py_repr (Limits.base it) v).
Proof.
  induction v as [ | | n | | | elts IH | items IH ] using value_ind; intros Hok; try done.
  - cbn [Limits.py_repr Limits.ints_ok] in *. unfold Limits.int_str. by rewrite Hok.
  - cbn [Limits.py_repr Limits.ints_ok py_repr] in *.
    apply forallb_Forall in Hok.
    rewrite (mapM_Return _ (py_repr (Limits.base it))); [ done | ].
    apply Forall_forall. intros x Hx.
    apply (proj1 (Forall_forall _ _) IH x Hx), (proj1 (Forall_forall _ _) Hok x Hx).
  - cbn [Limits.py_repr Limits.ints_ok py_repr] in *.
    apply forallb_Forall in Hok.
    rewrite (mapM_Return _ (λ kv, str_repr kv.1 +:+ ": " +:+ py_repr (Limits.base it) kv.2));
      [ done | ].
    apply Forall_forall. intros x Hx.
    by rewrite (proj1 (Forall_forall _ _) IH x Hx (proj1 (Forall_forall _ _) Hok x Hx)).
Qed.

Lemma limits_py_str v :
  Limits.ints_ok it v = true → Limits.py_str it v = Return (py_str (Limits.base it) v).
Proof. destruct v; try done; apply limits_py_repr. Qed.

Lemma limits_flatten_value_dict d new_key sep :
  Limits.flatten_value it (PyDict d) new_key sep = Limits._flatten_dict it d new_key sep.
Proof.
  unfold Limits._flatten_dict. cbn [Limits.flatten_value]. f_equal.
  induction d as [ | [k v] d IH ]; [ done | ]. cbn [Limits.flatten_loop]. by rewrite IH.
Qed.

Lemma limits_flatten_value v new_key sep :
  Limits.ints_ok it v = true →
  Limits.flatten_value it v new_key sep = Return (flatten_value (Limits.base it) v new_key sep).
Proof.
  revert new_key. induction v as [ | | | | | elts _ | d IH ] using value_ind;
    intros new_key Hok; try done.
  - cbn [Limits.flatten_value flatten_value]. by rewrite limits_py_str.
  - rewrite limits_flatten_value_dict, flatten_value_dict.
    unfold Limits._flatten_dict, _flatten_dict.
    cbn [Limits.ints_ok] in Hok. apply forallb_Forall in Hok.
    assert (Hloop : Limits.flatten_loop it d new_key sep
                    = Return (flatten_loop (Limits.base it) d new_key sep)).
    { induction d as [ | [k v] d IHd ]; [ done | ].
      apply Forall_cons in IH as [IHv IH]. apply Forall_cons in Hok as [Hv Hok].
      cbn [Limits.flatten_loop flatten_loop]. rewrite IHv by done. bind_simpl.
      rewrite IHd by done. done. }
    by rewrite Hloop.
Qed.

Lemma limits_flatten_record (record : value) :
  Limits.recursion_ok it record = true → Limits.ints_ok it record = true →
  Limits.flatten_record it record = Return (flatten_record (Limits.base it) record).
Proof.
  intros Hrec Hok. unfold Limits.flatten_record. rewrite Hrec.
  destruct record as [ | | | | | | d ];
    try (rewrite limits_py_str by done; done).
  cbn [flatten_record]. rewrite <- limits_flatten_value_dict, <- flatten_value_dict.
  by apply limits_flatten_value.
Qed.

(** The values of a flat row are within the digit limit when the record
    is. *)
Lemma leaves_value_ints_ok v new_key sep :
  Limits.ints_ok it v = true →
  Forall (λ kv, Limits.ints_ok it kv.2 = true) (leaves_value (Limits.base it) v new_key sep).
Proof.
  revert new_key. induction v as [ | | | | | | d IH ] using value_ind; intros new_key Hok;
    try (by repeat constructor).
  rewrite leaves_value_dict. cbn [Limits.ints_ok] in Hok. apply forallb_Forall in Hok.
  induction d as [ | [k v] d IHd ]; [ constructor | ].
  apply Forall_cons in IH as [IHv IH]. apply Forall_cons in Hok as [Hv Hok].
  cbn [leaves]. apply Forall_app. split; [ by apply IHv | by apply IHd ].
Qed.

Lemma flatten_record_ints_ok (record : value) :
  Limits.ints_ok it record = true →
  Forall (λ kv, Limits.ints_ok it kv.2 = true) (flatten_record (Limits.base it) record).
Proof.
  intros Hok. destruct record as [ | | | | | | d ]; try (by repeat constructor).
  cbn [flatten_record]. rewrite _flatten_dict_of_leaves.
  apply Forall_forall. intros [k v] Hin. apply dict_of_items_elem in Hin.
  pose proof (leaves_value_ints_ok (PyDict d) "" "_" Hok) as Hall.
  rewrite leaves_value_dict in Hall.
  by apply (proj1 (Forall_forall _ _) Hall (k, v)).
Qed.

Lemma limits_append_field (w : writer) (field : value) :
  Limits.ints_ok it field = true →
  Limits.append_field it w field = Return (append_field (Limits.base it) w field).
Proof.
  intros Hok. destruct field; try done;
    unfold Limits.append_field; rewrite limits_py_str by done; done.
Qed.

Lemma limits_append_fields (w : writer) (fields : list value) :
  Forall (λ v, Limits.ints_ok it v = true) fields →
  Limits.append_fields it w fields = Return (foldl (append_field (Limits.base it)) w fields).
Proof.
  intros Hall. revert w. induction Hall as [ | field fields Hf _ IH ]; intros w; [ done | ].
  cbn [Limits.append_fields foldl]. rewrite limits_append_field by done. bind_simpl.
  apply IH.
Qed.

Lemma limits_csv_writerow (fields : list value) :
  Forall (λ v, Limits.ints_ok it v = true) fields →
  Limits.csv_writerow it fields = Return (csv_writerow (Limits.base it) fields).
Proof.
  intros Hall. unfold Limits.csv_writerow, csv_writerow.
  by rewrite limits_append_fields.
Qed.

Lemma limits_writerow (fieldnames : list string) (row : list (string * value)) :
  Forall (λ kv, Limits.ints_ok it kv.2 = true) row →
  Limits.writerow it fieldnames row = writerow (Limits.base it) fieldnames row.
Proof.
  intros Hall. unfold Limits.writerow, writerow, _dict_to_list.
  destruct (filter _ _); [ | done ]. bind_simpl.
  rewrite limits_csv_writerow; [ done | ].
  apply Forall_fmap, Forall_forall. intros key _. cbn [compose].
  destruct (dict_get key row) as [ v | ] eqn:Hget; [ | done ].
  apply dict_get_elem in Hget.
  by apply (proj1 (Forall_forall _ _) Hall (key, v)).
Qed.

Lemma limits_writeheader (fieldnames : list string) :
  Limits.writeheader it fieldnames = writeheader (Limits.base it) fieldnames.
Proof.
  unfold Limits.writeheader, writeheader. apply limits_writerow.
  apply Forall_forall. intros [k v] Hin. apply dict_of_items_elem in Hin.
  apply elem_of_zip_r in Hin. cbn [snd] in *.
  by apply list_elem_of_fmap in Hin as (k' & -> & _).
Qed.

Lemma limits_writerows (fieldnames : list string) (rows : list (list (string * value))) :
  Forall (Forall (λ kv, Limits.ints_ok it kv.2 = true)) rows →
  Limits.writerows it fieldnames rows = writerows (Limits.base it) fieldnames rows.
Proof.
  induction 1 as [ | row rows Hrow _ IH ]; [ done | ].
  cbn [Limits.writerows writerows]. by rewrite limits_writerow, IH.
Qed.

Lemma limits_convert (data : value) :
  Forall (λ record, Limits.recursion_ok it record = true ∧ Limits.ints_ok it record = true)
    (records_of data) →
  Limits.convert it data = convert (Limits.base it) data.
Proof.
  intros Hall. unfold Limits.convert, convert.
  rewrite (mapM_Return _ (flatten_record (Limits.base it)))
    by (eapply Forall_impl; [ exact Hall | ]; intros r [? ?]; by apply limits_flatten_record).
  bind_simpl.
  destruct (flatten_record (Limits.base it) <$> records_of data) as [ | row rows ] eqn:Hrows;
    [ done | ].
  rewrite limits_writeheader, limits_writerows; [ done | ].
  rewrite <- Hrows. apply Forall_fmap. eapply Forall_impl; [ exact Hall | ].
  intros r [_ Hr]. by apply flatten_record_ints_ok.
Qed.

Lemma limits_json_to_csv (json_input : value) :
  (∀ s, json_input = PyStr s → Limits.loads_raises it s = None) →
  (∀ data, parsed (Limits.base it) json_input = Some data →
     Forall (λ record, Limits.recursion_ok it record = true ∧ Limits.ints_ok it record = true)
       (records_of data)) →
  Limits.json_to_csv it json_input = json_to_csv (Limits.base it) json_input.
Proof.
  intros Hloads Hrecords.
  destruct json_input as [ | | | | s | | ];
    try (cbn [Limits.json_to_csv json_to_csv]; by apply limits_convert, Hrecords).
  cbn [Limits.json_to_csv json_to_csv]. rewrite (Hloads s eq_refl).
  destruct (json_loads (Limits.base it) s) as [ data | ] eqn:Hparse; [ | done ].
  by apply limits_convert, Hrecords.
Qed.

(** Without a digit limit every value is within it. *)
Lemma ints_ok_no_limit v : Limits.max_str_digits it = 0 → Limits.ints_ok it v = true.
Proof.
  intros Hmax.
  induction v as [ | | n | | | elts IH | items IH ] using value_ind; try done.
  - cbn [Limits.ints_ok]. unfold Limits.int_ok. by rewrite Hmax.
  - cbn [Limits.ints_ok]. by apply forallb_Forall.
  - cbn [Limits.ints_ok]. by apply forallb_Forall.
Qed.
End LimitsFacts.

(** ** Beyond the limits

    The digits of a power of ten are counted without writing it out. *)

Lemma string_of_uint_length (d : Decimal.uint) :
  String.length (NilEmpty.string_of_uint d) = Decimal.nb_digits d.
Proof. induction d; simpl; congruence. Qed.

Lemma string_of_uint_nonnil_length (d : Decimal.uint) :
  d ≠ Decimal.Nil → String.length (NilZero.string_of_uint d) = Decimal.nb_digits d.
Proof. intros Hd. destruct d; [ done | .. ]; apply string_of_uint_length. Qed.

Lemma int_digits_pos (p : positive) :
  Limits.int_digits (Z.pos p) = Decimal.nb_digits (Pos.to_little_uint p).
Proof.
  change (Limits.int_digits (Z.pos p))
    with (String.length (NilZero.string_of_uint (Pos.to_uint p))).
  rewrite string_of_uint_nonnil_length by apply DecimalPos.Unsigned.to_uint_nonnil.
  apply DecimalFacts.nb_digits_rev.
Qed.

Lemma int_digits_tenfold (p : positive) :
  Limits.int_digits (Z.pos (10 * p)) = S (Limits.int_digits (Z.pos p)).
Proof.
  rewrite !int_digits_pos.
  pose proof (DecimalPos.Unsigned.to_ldec_tenfold p) as H.
  change (Pos.to_little_uint (10 * p) = Decimal.D0 (Pos.to_little_uint p)) in H.
  by rewrite H.
Qed.

Lemma int_digits_pow10 (k : nat) : Limits.int_digits (10 ^ Z.of_nat k) = S k.
Proof.
  induction k as [ | k IH ]; [ done | ].
  rewrite Nat2Z.inj_succ, Z.pow_succ_r by lia.
  assert (Hpos : (0 < 10 ^ Z.of_nat k)%Z) by (apply Z.pow_pos_nonneg; lia).
  destruct (10 ^ Z.of_nat k)%Z as [ | p | p ] eqn:Hp; try lia.
  change (10 * Z.pos p)%Z with (Z.pos (10 * p)).
  by rewrite int_digits_tenfold, IH.
Qed.

Lemma big_int_digits : Limits.int_digits big_int = 4301.
Proof.
  unfold big_int. change 4300%Z with (Z.of_nat 4300). apply int_digits_pow10.
Qed.

Lemma big_int_not_ok : Limits.int_ok sample_interpreter big_int = false.
Proof. unfold Limits.int_ok. rewrite big_int_digits. reflexivity. Qed.

(** An [int] beyond the digit limit makes the conversion raise, wherever
    [str] meets it: as a record, inside a list of a record, as a field of
    the writer. *)

Section LimitsRaise.
Variable it : Limits.interpreter.
Variable n : Z.
Hypothesis Hn : Limits.int_ok it n = false.

Lemma limits_int_str_raises : Limits.int_str it n = Raise ValueError.
Proof. unfold Limits.int_str. by rewrite Hn. Qed.

Lemma limits_int_record_raises (data : value) :
  records_of data = [PyInt n] → Limits.recursion_ok it (PyInt n) = true →
  Limits.convert it data = Raise ValueError.
Proof.
  intros Hr Hrec. unfold Limits.convert. rewrite Hr. cbn [mapM].
  unfold Limits.flatten_record. rewrite Hrec.
  cbn [Limits.py_str Limits.py_repr]. by rewrite limits_int_str_raises.
Qed.

Lemma limits_int_in_list_raises (data : value) (k : string) :
  records_of data = [PyDict [(k, PyList [PyInt n])]] →
  Limits.recursion_ok it (PyDict [(k, PyList [PyInt n])]) = true →
  Limits.convert it data = Raise ValueError.
Proof.
  intros Hr Hrec. unfold Limits.convert. rewrite Hr. cbn [mapM].
  unfold Limits.flatten_record. rewrite Hrec. unfold Limits._flatten_dict.
  cbn [Limits.flatten_loop Limits.flatten_value Limits.py_str Limits.py_repr mapM].
  by rewrite limits_int_str_raises.
Qed.

Lemma limits_writerow_raises (k : string) :
  Limits.writerow it [k] [(k, PyInt n)] = Raise ValueError.
Proof.
  unfold Limits.writerow. rewrite _dict_to_list_ok by done. bind_simpl.
  assert (Hcells : cells_of [k] [(k, PyInt n)] = [PyInt n]).
  { unfold cells_of. rewrite fmap_cons. cbn [dict_get]. by rewrite decide_True. }
  rewrite Hcells. unfold Limits.csv_writerow.
  cbn [Limits.append_fields Limits.append_field Limits.py_str Limits.py_repr].
  by rewrite limits_int_str_raises.
Qed.

Lemma limits_int_field_raises (data : value) (k : string) :
  records_of data = [PyDict [(k, PyInt n)]] →
  Limits.recursion_ok it (PyDict [(k, PyInt n)]) = true →
  Limits.convert it data = Raise ValueError.
Proof.
  intros Hr Hrec. unfold Limits.convert. rewrite Hr. cbn [mapM].
  unfold Limits.flatten_record. rewrite Hrec.
  change (Limits._flatten_dict it [(k, PyInt n)] "" "_") with (Return [(k, PyInt n)]).
  bind_simpl. cbn beta iota.
  assert (Hkeys : all_keys_of [[(k, PyInt n)]] = [k]) by (by rewrite all_keys_of_first_seen).
  rewrite Hkeys.
  rewrite limits_writeheader, writeheader_ok by apply NoDup_singleton. bind_simpl.
  cbn [Limits.writerows]. by rewrite limits_writerow_raises.
Qed.
End LimitsRaise.

(** * The claims that hold with a correction *)

(** C3, as amended.  [json_to_csv] returns a text and raises nothing
    whenever [json.loads] returns a value or raises [JSONDecodeError],
    every extracted record is within the recursion limit and every [int]
    of the records is within the digit limit of [str]; the text is the one
    the module gives without limits, so the [ValueError] of
    [csv.DictWriter] for a key outside the header never occurs, and it is
    empty for a string that fails to parse.  With an interpreter that has
    none of these limits this is every input.  Otherwise the exception
    reaches the caller: what [json.loads] raises that is no
    [JSONDecodeError], the [ValueError] of [str] for an [int] beyond the
    digit limit, the [RecursionError] of a record nested too deep. *)
Theorem json_to_csv_total (it : Limits.interpreter) :
  (∀ json_input,
     (∀ s, json_input = PyStr s → Limits.loads_raises it s = None) →
     (∀ data, parsed (Limits.base it) json_input = Some data →
        Forall (λ record, Limits.recursion_ok it record = true
                          ∧ Limits.ints_ok it record = true) (records_of data)) →
     ∃ text, Limits.json_to_csv it json_input = Return text
       ∧ json_to_csv (Limits.base it) json_input = Return text
       ∧ (∀ s, json_input = PyStr s → json_loads (Limits.base it) s = None → text = ""))
  ∧ (∀ s, Limits.loads_raises it s = None → json_loads (Limits.base it) s = None →
       Limits.json_to_csv it (PyStr s) = Return "")
  ∧ (Limits.max_str_digits it = 0 →
     (∀ record, Limits.recursion_ok it record = true) →
     (∀ s, Limits.loads_raises it s = None) →
     ∀ json_input, ∃ text, Limits.json_to_csv it json_input = Return text)
  ∧ (∀ s e, Limits.loads_raises it s = Some e → Limits.json_to_csv it (PyStr s) = Raise e)
  ∧ (∀ n, Limits.recursion_ok it (PyInt n) = true → Limits.int_ok it n = false →
       Limits.json_to_csv it (PyInt n) = Raise ValueError)
  ∧ (∀ record, Limits.recursion_ok it record = false →
       Limits.json_to_csv it (PyList [record]) = Raise RecursionError).
Proof.
  assert (Htotal : ∀ json_input,
    (∀ s, json_input = PyStr s → Limits.loads_raises it s = None) →
    (∀ data, parsed (Limits.base it) json_input = Some data →
       Forall (λ record, Limits.recursion_ok it record = true
                         ∧ Limits.ints_ok it record = true) (records_of data)) →
    ∃ text, Limits.json_to_csv it json_input = Return text
      ∧ json_to_csv (Limits.base it) json_input = Return text
      ∧ (∀ s, json_input = PyStr s → json_loads (Limits.base it) s = None → text = "")).
  { intros json_input Hloads Hrecords. rewrite limits_json_to_csv by done.
    rewrite json_to_csv_parsed.
    destruct (parsed (Limits.base it) json_input) as [ data | ] eqn:Hp.
    - rewrite convert_ok. eexists. split; [ reflexivity | ]. split; [ reflexivity | ].
      intros s -> Hs. cbn [parsed] in Hp. congruence.
    - by exists "". }
  split; [ exact Htotal | ].
  split; [ | split; [ | split; [ | split ] ] ].
  - intros s Hloads Hparse. cbn [Limits.json_to_csv]. by rewrite Hloads, Hparse.
  - intros Hmax Hrec Hloads json_input.
    destruct (Htotal json_input) as (text & Htext & _).
    + intros s _. apply Hloads.
    + intros data _. apply Forall_forall. intros record _.
      split; [ apply Hrec | by apply ints_ok_no_limit ].
    + by exists text.
  - intros s e Hloads. cbn [Limits.json_to_csv]. by rewrite Hloads.
  - intros n Hrec Hn. cbn [Limits.json_to_csv]. unfold Limits.convert.
    cbn [records_of mapM]. unfold Limits.flatten_record. rewrite Hrec.
    cbn [Limits.py_str Limits.py_repr]. unfold Limits.int_str. by rewrite Hn.
  - intros record Hrec. cbn [Limits.json_to_csv]. unfold Limits.convert.
    cbn [records_of mapM]. unfold Limits.flatten_record. by rewrite Hrec.
Qed.

Lemma json_to_csv_total_witness :
  (∃ text, Limits.json_to_csv sample_interpreter results_list_input = Return text
     ∧ json_to_csv sample_runtime results_list_input = Return text)
  ∧ Limits.json_to_csv sample_interpreter (PyStr "not json") = Return ""
  ∧ Limits.json_to_csv sample_interpreter (PyInt big_int) = Raise ValueError.
Proof.
  destruct (json_to_csv_total sample_interpreter) as (Htotal & Hparse & _ & _ & Hint & _).
  split; [ | split ].
  - destruct (Htotal results_list_input) as (text & Htext & Hbase & _).
    + intros s Hs. discriminate Hs.
    + intros data [= <-]. repeat constructor.
    + exists text. split; [ exact Htext | exact Hbase ].
  - apply (Hparse "not json"); reflexivity.
  - apply (Hint big_int); [ reflexivity | exact big_int_not_ok ].
Defined.

(** C3 as stated fails: the module catches [JSONDecodeError] only.  An
    [int] of 4301 digits, as a value of a record, as a record or inside a
    list, makes [str] raise [ValueError], in the writer or in the
    flattener; and for a text of 4301 digits [json.loads] raises a
    [ValueError] that is not a [JSONDecodeError]. *)
Lemma never_raises_counterexample :
  Limits.int_digits big_int = 4301
  ∧ Limits.max_str_digits sample_interpreter = 4300
  ∧ Limits.json_to_csv sample_interpreter (PyDict [("a", PyInt big_int)]) = Raise ValueError
  ∧ Limits.json_to_csv sample_interpreter (PyInt big_int) = Raise ValueError
  ∧ Limits.json_to_csv sample_interpreter
      (PyDict [("results", PyList [PyDict [("a", PyList [PyInt big_int])]])])
    = Raise ValueError
  ∧ String.length (str_repeat "1" 4301) = 4301
  ∧ Limits.json_to_csv sample_interpreter (PyStr (str_repeat "1" 4301)) = Raise ValueError.
Proof.
  generalize big_int_digits big_int_not_ok. generalize big_int. intros n Hdigits Hn.
  split; [ exact Hdigits | ].
  split; [ reflexivity | ].
  split; [ | split; [ | split; [ | split ] ] ].
  - apply (limits_int_field_raises _ _ Hn _ "a"); reflexivity.
  - apply (limits_int_record_raises _ _ Hn); reflexivity.
  - apply (limits_int_in_list_raises _ _ Hn _ "a"); reflexivity.
  - by vm_compute.
  - by vm_compute.
Qed.

(** C5, as amended.  With a header that is not empty, the text is the
    header record followed by one record for each extracted record, rows
    that flattened to nothing included; each record ends with the line
    terminator; the fields of a row follow the header, a missing column
    giving an empty field.  A record is one line when no field of it has
    a line feed: the text has one line feed for each record and those of
    the column names and fields, and without a line feed in them it is
    one line for the header and one line for each record. *)
Theorem csv_output_layout (rt : runtime) (json_input data : value) :
  parsed rt json_input = Some data →
  header_of rt data ≠ [] →
  json_to_csv rt json_input
  = Return (csv_writerow rt (PyStr <$> header_of rt data)
            +:+ str_concat ((λ row, csv_writerow rt (cells_of (header_of rt data) row))
                            <$> flat_rows rt data))
  ∧ length (flat_rows rt data) = length (records_of data)
  ∧ (∀ vs, csv_writerow rt vs = row_text rt (cell_text rt <$> vs) +:+ lineterminator)
  ∧ (∀ row,
       cell_text rt <$> cells_of (header_of rt data) row
       = (λ k, match dict_get k row with Some v => cell_text rt v | None => "" end)
         <$> header_of rt data)
  ∧ (∃ text,
       json_to_csv rt json_input = Return text
       ∧ count_char LF text
         = 1 + length (records_of data)
           + sum_list (count_char LF <$> header_of rt data)
           + sum_list ((λ row, sum_list (count_char LF
                                           <$> (cell_text rt <$> cells_of (header_of rt data) row)))
                       <$> flat_rows rt data))
  ∧ (Forall (λ k, count_char LF k = 0) (header_of rt data) →
     Forall (λ row, Forall (λ v, count_char LF (cell_text rt v) = 0)
                      (cells_of (header_of rt data) row)) (flat_rows rt data) →
     ∃ text, json_to_csv rt json_input = Return text ∧ one_line_each data text)
  ∧ json_to_csv rt results_list_input = Return (text_of_lines ["a,b"; "1,"; "2,3"]).
Proof.
  intros Hp Hh.
  assert (Hrows : flat_rows rt data ≠ []).
  { intros Hnil. apply Hh. unfold header_of. by rewrite Hnil. }
  assert (Hne : records_of data ≠ []).
  { intros Hnil. apply Hrows. unfold flat_rows. by rewrite Hnil. }
  split; [ | split; [ | split; [ | split; [ | split; [ | split ] ] ] ] ].
  - rewrite json_to_csv_parsed, Hp, convert_ok.
    destruct (flat_rows rt data) as [ | row rows ] eqn:E; [ congruence | done ].
  - unfold flat_rows. apply length_fmap.
  - apply csv_writerow_text.
  - intros row. unfold cells_of. rewrite <- list_fmap_compose.
    apply list_fmap_ext. intros i k _. simpl. by destruct (dict_get k row).
  - rewrite json_to_csv_parsed, Hp. by apply convert_line_feeds.
  - intros Hhead Hcells. rewrite json_to_csv_parsed, Hp. by apply convert_one_line_each.
  - destruct rt as [fr jl []]; by vm_compute.
Qed.

Lemma csv_output_layout_witness :
  header_of sample_runtime results_list_input = ["a"; "b"]
  ∧ json_to_csv sample_runtime results_list_input
    = Return (text_of_lines ["a,b"; "1,"; "2,3"])
  ∧ ∃ text, json_to_csv sample_runtime results_list_input = Return text
      ∧ one_line_each results_list_input text.
Proof.
  assert (H : header_of sample_runtime results_list_input ≠ []) by (by vm_compute).
  pose proof (csv_output_layout sample_runtime results_list_input results_list_input
                eq_refl H) as (Htext & _ & _ & _ & _ & Hlines & _).
  split; [ by vm_compute | ]. split.
  - rewrite Htext. by vm_compute.
  - apply Hlines; apply (bool_decide_unpack _); vm_compute; exact I.
Defined.

(** C5 as stated fails: a field with a line feed is written between
    quotes with its line feed, so the record of [{"a": "x\ny"}] takes two
    lines and the text of one record has three lines. *)
Lemma one_line_per_record_counterexample :
  parsed sample_runtime line_feed_input = Some line_feed_input
  ∧ header_of sample_runtime line_feed_input = ["a"]
  ∧ length (records_of line_feed_input) = 1
  ∧ json_to_csv sample_runtime line_feed_input
    = Return (text_of_lines ["a"; String quotechar "x"; String "y" (String quotechar "")])
  ∧ count_char LF (text_of_lines ["a"; String quotechar "x"; String "y" (String quotechar "")])
    = 3
  ∧ ¬ one_line_each line_feed_input
        (text_of_lines ["a"; String quotechar "x"; String "y" (String quotechar "")]).
Proof.
  do 5 (split; [ by vm_compute | ]).
  intros (lines & Hlen & Hall & Htext).
  apply (f_equal (count_char LF)) in Htext.
  rewrite (count_LF_text_of_lines lines Hall), Hlen in Htext.
  vm_compute in Htext. discriminate.
Qed.

(** C7, as amended.  A list met by the flattener gives one item, never
    one for each element: its joined key, and the text of the whole list.
    The row has a column for that key, and the column holds the value of
    the last leaf joined into the key: the text of the list when no later
    leaf is joined into the same key, and so whenever the joined keys of
    the record are distinct. *)
Theorem sequence_single_column (rt : runtime) :
  (∀ elts new_key sep,
     flatten_value rt (PyList elts) new_key sep
     = [(new_key, PyStr ("[" +:+ join ", " (py_repr rt <$> elts) +:+ "]"))])
  ∧ (∀ k elts rest parent_key sep,
       flatten_loop rt ((k, PyList elts) :: rest) parent_key sep
       = (new_key_of parent_key sep k, PyStr (py_str rt (PyList elts)))
         :: flatten_loop rt rest parent_key sep)
  ∧ (∀ d path elts, at_path d path (PyList elts) →
       (path_key "" "_" path, PyStr (py_str rt (PyList elts))) ∈ leaves rt d "" "_"
       ∧ path_key "" "_" path ∈ dict_keys (_flatten_dict rt d "" "_")
       ∧ dict_get (path_key "" "_" path) (_flatten_dict rt d "" "_")
         = dict_get (path_key "" "_" path) (reverse (leaves rt d "" "_")))
  ∧ (∀ d elts key before after,
       leaves rt d "" "_" = before ++ (key, PyStr (py_str rt (PyList elts))) :: after →
       key ∉ after.*1 →
       dict_get key (_flatten_dict rt d "" "_") = Some (PyStr (py_str rt (PyList elts))))
  ∧ (∀ d path elts, NoDup (leaves rt d "" "_").*1 → at_path d path (PyList elts) →
       dict_get (path_key "" "_" path) (_flatten_dict rt d "" "_")
       = Some (PyStr (py_str rt (PyList elts))))
  ∧ json_to_csv rt tags_input = Return (text_of_lines ["tags"; in_quotes "['x', 'y']"]).
Proof.
  split; [ done | ].
  split; [ done | ].
  split; [ | split; [ | split ] ].
  - intros d path elts Hpath.
    pose proof (at_path_leaf rt d path (PyList elts) "" "_" Hpath eq_refl) as Hleaf.
    cbn [leaf_value] in Hleaf.
    split; [ exact Hleaf | ]. split; [ by eapply leaf_key_in_row | apply flat_get_leaves ].
  - intros d elts key before after Hl Hk. by eapply last_leaf_wins.
  - intros d path elts Hnd Hpath.
    by rewrite (at_path_flat rt d path (PyList elts) "" "_" Hnd Hpath).
  - destruct rt as [fr jl []]; by vm_compute.
Qed.

Lemma sequence_single_column_witness :
  dict_get "a_b"
    (_flatten_dict sample_runtime
       [("a_b", PyInt 7); ("a", PyDict [("b", PyList [PyInt 1; PyInt 2])])] "" "_")
  = Some (PyStr "[1, 2]")
  ∧ dict_get "a_tags"
      (_flatten_dict sample_runtime [("a", PyDict [("tags", PyList [PyStr "x"; PyStr "y"])])]
         "" "_")
    = Some (PyStr "['x', 'y']").
Proof.
  destruct (sequence_single_column sample_runtime) as (_ & _ & _ & Hlast & Hdistinct & _).
  split.
  - apply (Hlast [("a_b", PyInt 7); ("a", PyDict [("b", PyList [PyInt 1; PyInt 2])])]
             [PyInt 1; PyInt 2] "a_b" [("a_b", PyInt 7)] []).
    + reflexivity.
    + apply not_elem_of_nil.
  - apply (Hdistinct [("a", PyDict [("tags", PyList [PyStr "x"; PyStr "y"])])] ["a"; "tags"]
             [PyStr "x"; PyStr "y"]).
    + apply (bool_decide_unpack _). vm_compute. exact I.
    + apply (at_path_below _ "a" [("tags", PyList [PyStr "x"; PyStr "y"])]).
      * apply list_elem_of_here.
      * apply at_path_here. apply list_elem_of_here.
Defined.

(** C7 as stated fails: in [{"a": {"b": [1, 2]}, "a_b": 7}] the list at
    the path [a], [b] and the key [a_b] are joined into the same key, the
    later one is kept, and the column [a_b] holds 7, not the text of the
    list. *)
Lemma sequence_column_counterexample :
  at_path sequence_collision ["a"; "b"] (PyList [PyInt 1; PyInt 2])
  ∧ path_key "" "_" ["a"; "b"] = "a_b"
  ∧ py_str sample_runtime (PyList [PyInt 1; PyInt 2]) = "[1, 2]"
  ∧ _flatten_dict sample_runtime sequence_collision "" "_" = [("a_b", PyInt 7)]
  ∧ dict_get (path_key "" "_" ["a"; "b"]) (_flatten_dict sample_runtime sequence_collision "" "_")
    ≠ Some (PyStr (py_str sample_runtime (PyList [PyInt 1; PyInt 2])))
  ∧ json_to_csv sample_runtime (PyDict [("results", PyList [PyDict sequence_collision])])
    = Return (text_of_lines ["a_b"; "7"]).
Proof.
  split.
  { apply (at_path_below _ "a" [("b", PyList [PyInt 1; PyInt 2])]).
    - apply list_elem_of_here.
    - apply at_path_here, list_elem_of_here. }
  do 3 (split; [ by vm_compute | ]).
  split; [ vm_compute; discriminate | by vm_compute ].
Qed.

(** C10, as amended.  [None] under a key of a record is carried unchanged
    as a leaf under that key, and the writer writes [None] as an empty
    field; the column of the key holds the value of the last leaf joined
    into it, so the field is empty when no later leaf is joined into the
    same key, and whenever the joined keys of the record are distinct.
    [None] as a record is replaced by the text [None], which is written
    as it is. *)
Theorem none_has_two_texts (rt : runtime) :
  (∀ new_key sep, flatten_value rt PyNone new_key sep = [(new_key, PyNone)])
  ∧ (∀ d k, (k, PyNone) ∈ d →
       (k, PyNone) ∈ leaves rt d "" "_"
       ∧ k ∈ dict_keys (flatten_record rt (PyDict d))
       ∧ dict_get k (flatten_record rt (PyDict d))
         = dict_get k (reverse (leaves rt d "" "_")))
  ∧ (∀ d k before after,
       leaves rt d "" "_" = before ++ (k, PyNone) :: after → k ∉ after.*1 →
       dict_get k (flatten_record rt (PyDict d)) = Some PyNone)
  ∧ (∀ d k, NoDup (leaves rt d "" "_").*1 → (k, PyNone) ∈ d →
       dict_get k (flatten_record rt (PyDict d)) = Some PyNone)
  ∧ (∀ w, append_field rt w PyNone = join_append rt w None false)
  ∧ cell_text rt PyNone = ""
  ∧ flatten_record rt PyNone = [("value", PyStr "None")]
  ∧ cell_text rt (PyStr "None") = "None"
  ∧ json_to_csv rt (PyDict [("k", PyNone); ("j", PyInt 1)])
    = Return (text_of_lines ["k,j"; ",1"])
  ∧ json_to_csv rt (PyDict [("k", PyNone)]) = Return (text_of_lines ["k"; in_quotes ""])
  ∧ csv_read (text_of_lines ["k"; in_quotes ""]) = Return [["k"]; [""]]
  ∧ json_to_csv rt PyNone = Return (text_of_lines ["value"; "None"])
  ∧ (∀ data,
       records_of data ≠ [] →
       Forall (reads_back rt) (header_of rt data) →
       Forall (λ row, Forall (λ v, reads_back rt (cell_text rt v))
                        (cells_of (header_of rt data) row)) (flat_rows rt data) →
       ∃ text, convert rt data = Return text
         ∧ csv_read text
           = Return (header_of rt data
                     :: ((λ row, (λ k, match dict_get k row with
                                       | Some PyNone => ""
                                       | Some v => cell_text rt v
                                       | None => ""
                                       end) <$> header_of rt data)
                         <$> flat_rows rt data))).
Proof.
  split; [ done | ].
  split; [ | split; [ | split ] ].
  - intros d k Hin. cbn [flatten_record].
    pose proof (at_path_leaf rt d [k] PyNone "" "_" (at_path_here d k PyNone Hin) eq_refl)
      as Hleaf.
    change (path_key "" "_" [k]) with k in Hleaf. cbn [leaf_value] in Hleaf.
    split; [ exact Hleaf | ]. split; [ by eapply leaf_key_in_row | apply flat_get_leaves ].
  - intros d k before after Hl Hk. cbn [flatten_record]. by eapply last_leaf_wins.
  - intros d k Hnd Hin. cbn [flatten_record].
    apply (at_path_flat rt d [k] PyNone "" "_" Hnd); [ | done ].
    by apply at_path_here.
  - do 4 (split; [ done | ]).
    split; [ destruct rt as [fr jl []]; by vm_compute | ].
    split; [ destruct rt as [fr jl []]; by vm_compute | ].
    split; [ by vm_compute | ].
    split; [ destruct rt as [fr jl []]; by vm_compute | ].
    intros data Hne Hhead Hrows.
    destruct (convert_reads_back rt data Hne Hhead Hrows) as (text & Hconv & Hread).
    exists text. split; [ exact Hconv | ]. rewrite Hread. do 2 f_equal.
    apply list_fmap_ext. intros i row _. unfold cells_of.
    rewrite <- list_fmap_compose. apply list_fmap_ext. intros j k _. simpl.
    by destruct (dict_get k row) as [ [] | ].
Qed.

Lemma none_has_two_texts_witness :
  dict_get "a_b"
    (flatten_record sample_runtime (PyDict [("a", PyDict [("b", PyInt 5)]); ("a_b", PyNone)]))
  = Some PyNone
  ∧ dict_get "k" (flatten_record sample_runtime (PyDict [("k", PyNone); ("j", PyInt 1)]))
    = Some PyNone
  ∧ ∃ text, convert sample_runtime (PyDict [("k", PyNone); ("j", PyInt 1)]) = Return text
      ∧ csv_read text = Return [["k"; "j"]; [""; "1"]].
Proof.
  destruct (none_has_two_texts sample_runtime)
    as (_ & _ & Hlast & Hdistinct & _ & _ & _ & _ & _ & _ & _ & _ & Hread).
  split; [ | split ].
  - apply (Hlast [("a", PyDict [("b", PyInt 5)]); ("a_b", PyNone)] "a_b"
             [("a_b", PyInt 5)] []).
    + reflexivity.
    + apply not_elem_of_nil.
  - apply (Hdistinct [("k", PyNone); ("j", PyInt 1)] "k").
    + apply (bool_decide_unpack _). vm_compute. exact I.
    + apply list_elem_of_here.
  - destruct (Hread (PyDict [("k", PyNone); ("j", PyInt 1)])) as (text & Hconv & Htext).
    + discriminate.
    + repeat (apply Forall_cons_2 || apply Forall_nil_2); right; reflexivity.
    + repeat (apply Forall_cons_2 || apply Forall_nil_2); right; reflexivity.
    + exists text. split; [ exact Hconv | exact Htext ].
Defined.

(** C10 as stated fails: in [{"a_b": null, "a": {"b": 5}}] the key [a_b]
    holds [None], the later path [a], [b] is joined into the same key and
    kept, and the field of the column [a_b] is 5, not empty. *)
Lemma null_field_counterexample :
  ("a_b", PyNone) ∈ null_collision
  ∧ flatten_record sample_runtime (PyDict null_collision) = [("a_b", PyInt 5)]
  ∧ dict_get "a_b" (flatten_record sample_runtime (PyDict null_collision)) ≠ Some PyNone
  ∧ json_to_csv sample_runtime (PyDict null_collision) = Return (text_of_lines ["a_b"; "5"])
  ∧ text_of_lines ["a_b"; "5"] ≠ text_of_lines ["a_b"; in_quotes ""].
Proof.
  split; [ apply list_elem_of_here | ].
  split; [ by vm_compute | ].
  split; [ vm_compute; discriminate | ].
  split; [ by vm_compute | vm_compute; discriminate ].
Qed.
